(** * GCC market dataset generator: a shallow embedding of
      [src/GCC_market_dataset.py] and the properties of its pipeline.

    The program walks country directories for PDF reports, slices the
    extracted text into overlapping windows, asks a text-generation service
    for multiple-choice questions and writes the results.  The embedding
    keeps the program's own function names.  The two external collaborators
    (PDF text extraction, the generation request followed by [json.loads])
    are oracles; everything between them is translated statement by
    statement. *)

From Stdlib Require Import String Ascii List Arith ZArith Lia Bool.
From Stdlib Require Import DecimalString DecimalNat Sorted FinFun.
Import ListNotations.
Local Open Scope list_scope.
Local Open Scope string_scope.
Local Open Scope nat_scope.
Local Set Warnings "-register-all".

(** ** Python built-ins used by the program *)

Module Py.

(** Characters are modelled as [ascii]; the classifications below are the
    ASCII restrictions of [str.isalpha], [str.isdigit], [str.isspace]. *)

Definition is_upper (c : ascii) : bool :=
  let n := nat_of_ascii c in (65 <=? n) && (n <=? 90).

Definition is_lower (c : ascii) : bool :=
  let n := nat_of_ascii c in (97 <=? n) && (n <=? 122).

Definition is_alpha (c : ascii) : bool := is_upper c || is_lower c.

Definition is_digit (c : ascii) : bool :=
  let n := nat_of_ascii c in (48 <=? n) && (n <=? 57).

Definition is_space (c : ascii) : bool :=
  let n := nat_of_ascii c in
  ((9 <=? n) && (n <=? 13)) || ((28 <=? n) && (n <=? 32)).

Definition to_upper (c : ascii) : ascii :=
  if is_lower c then ascii_of_nat (nat_of_ascii c - 32) else c.

Definition to_lower (c : ascii) : ascii :=
  if is_upper c then ascii_of_nat (nat_of_ascii c + 32) else c.

Fixpoint map_chars (f : ascii -> ascii) (s : string) : string :=
  match s with
  | EmptyString => EmptyString
  | String c s' => String (f c) (map_chars f s')
  end.

(** [s.upper()] *)
Definition upper (s : string) : string := map_chars to_upper s.

(** [s.replace(a, b)] for one-character [a] and [b]. *)
Definition replace_char (a b : ascii) (s : string) : string :=
  map_chars (fun c => if Ascii.eqb c a then b else c) s.

(** [s.split(sep)[0]] for a one-character separator: the text before the
    first occurrence of [sep], the whole string when there is none. *)
Fixpoint split_first (sep : ascii) (s : string) : string :=
  match s with
  | EmptyString => EmptyString
  | String c s' =>
      if Ascii.eqb c sep then EmptyString else String c (split_first sep s')
  end.

(** [s.title()]: a cased character is upper-cased when the character
    before it is not cased, lower-cased when it is; other characters are
    kept and end the word. *)
Fixpoint title_from (prev_cased : bool) (s : string) : string :=
  match s with
  | EmptyString => EmptyString
  | String c s' =>
      if is_alpha c
      then String (if prev_cased then to_lower c else to_upper c)
                  (title_from true s')
      else String c (title_from false s')
  end.

Definition title (s : string) : string := title_from false s.

(** [s[i:j]] for [0 <= i <= j]. *)
Definition slice (s : string) (i j : nat) : string := substring i (j - i) s.

(** [s[:n]] *)
Definition take (n : nat) (s : string) : string := substring 0 n s.

(** [str(n)] for a non-negative integer. *)
Definition str (n : nat) : string := NilEmpty.string_of_uint (Nat.to_uint n).

(** [range(start, stop, step)] for [step > 0]: its length is
    [(stop - start + step - 1) // step], its k-th element
    [start + k * step]. *)
Definition range (start stop step : nat) : list nat :=
  map (fun k => start + k * step)
      (seq 0 ((stop - start + step - 1) / step)).

(** [s.split()]: maximal runs of non-whitespace characters.  [cur] is the
    word being read, in reverse. *)
Fixpoint rev_string (acc s : string) : string :=
  match s with
  | EmptyString => acc
  | String c s' => rev_string (String c acc) s'
  end.

Fixpoint split_ws_from (cur : string) (s : string) : list string :=
  match s with
  | EmptyString =>
      match cur with
      | EmptyString => []
      | _ => [rev_string EmptyString cur]
      end
  | String c s' =>
      if is_space c
      then match cur with
           | EmptyString => split_ws_from EmptyString s'
           | _ => rev_string EmptyString cur :: split_ws_from EmptyString s'
           end
      else split_ws_from (String c cur) s'
  end.

Definition split_ws (s : string) : list string := split_ws_from EmptyString s.

(** [''.join(parts)] *)
Definition join (parts : list string) : string := String.concat "" parts.

(** [d.get(key, default)] on a constant table. *)
Fixpoint dict_get {V : Type} (d : list (string * V)) (key : string)
         (default : V) : V :=
  match d with
  | [] => default
  | (k, v) :: d' => if String.eqb k key then v else dict_get d' key default
  end.

Fixpoint dict_mem {V : Type} (d : list (string * V)) (key : string) : bool :=
  match d with
  | [] => false
  | (k, _) :: d' => String.eqb k key || dict_mem d' key
  end.

(** [os.path.join(a, b)] on POSIX. *)
Definition ends_with_slash (s : string) : bool :=
  match String.get (String.length s - 1) s with
  | Some c => Ascii.eqb c "/"
  | None => false
  end.

Definition path_join (a b : string) : string :=
  match b with
  | String "/" _ => b
  | _ =>
      match a with
      | EmptyString => b
      | _ => if ends_with_slash a then a ++ b else a ++ "/" ++ b
      end
  end.

End Py.

(** ** Data model *)

(** One collected PDF: the dictionary built at lines 71-75. *)
Record PdfRef := mkPdfRef {
  ref_path : string;
  ref_country : string;
  ref_filename : string
}.

(** The same dictionary after [pdf_info['company'] = company_name]
    (line 327), as the chunker reads it. *)
Record PdfInfo := mkPdfInfo {
  path : string;
  country : string;
  filename : string;
  company : string
}.

Record Chunk := mkChunk {
  text : string;
  chunk_id : string;
  source_file : string;
  chunk_company : string;
  chunk_country : string;
  report_year : string
}.

(** A decoded JSON value, as [json.loads] returns it.  An object is the
    resulting dictionary, in key order; a number keeps its literal, the
    program only passes numbers through. *)
Inductive json : Type :=
| JNull
| JBool (b : bool)
| JNum (literal : string)
| JStr (s : string)
| JArr (items : list json)
| JObj (fields : list (string * json)).

Record Metadata := mkMetadata {
  difficulty : json;
  md_company : string;
  md_report_year : string;
  md_source_file : string;
  source_chunk_id : string;
  source_type : string;
  category : json
}.

Record Question := mkQuestion {
  id : string;
  question : json;
  options : json;
  answer : json;
  metadata : Metadata
}.

(** ** Corpus collector: [collect_gcc_company_pdfs] *)

Module Collector.

(** What the collector sees of the input directory: whether it exists,
    and, for every entry of [os.listdir] that is a directory, the file
    names that [glob] returns for ["*.pdf"] in it. *)
Record Listing := mkListing {
  dir_exists : bool;
  subdirs : list (string * list string)
}.

Definition is_code_sep (c : ascii) : bool :=
  Ascii.eqb c "-" || Ascii.eqb c "_".

Fixpoint all_alpha (s : string) : bool :=
  match s with
  | EmptyString => true
  | String c s' => Py.is_alpha c && all_alpha s'
  end.

(** One attempt of [^([A-Za-z]{2,4})[-_]] with exactly [n] letters. *)
Definition code_of_length (n : nat) (filename : string) : option string :=
  let prefix := Py.take n filename in
  if (String.length prefix =? n) && all_alpha prefix
     && match String.get n filename with
        | Some c => is_code_sep c
        | None => false
        end
  then Some prefix else None.

(** [re.match(r'^([A-Za-z]{2,4})[-_]', filename)], group 1: the greedy
    repetition is tried with 4, then 3, then 2 letters. *)
Definition company_code_match (filename : string) : option string :=
  match code_of_length 4 filename with
  | Some g => Some g
  | None =>
      match code_of_length 3 filename with
      | Some g => Some g
      | None => code_of_length 2 filename
      end
  end.

Definition company_name_map : list (string * string) :=
  [ ("BBK", "Bank of Bahrain and Kuwait");
    ("NBB", "National Bank of Bahrain");
    ("SIB", "Sohar International Bank");
    ("ABK", "Al Ahli Bank of Kuwait");
    ("NBK", "National Bank of Kuwait");
    ("BM", "Bank Muscat");
    ("EDO", "Energy Development Oman");
    ("ADIB", "Abu Dhabi Islamic Bank");
    ("FAB", "First Abu Dhabi Bank");
    ("ENBD", "Emirates NBD");
    ("DIB", "Dubai Islamic Bank");
    ("CBD", "Commercial Bank of Dubai");
    ("TAB", "Tabreed") ].

(** Lines 42-66: the company name a file is grouped under. *)
Definition company_name_of (filename country : string) : string :=
  match company_code_match filename with
  | Some g =>
      let company_code := Py.upper g in
      Py.dict_get company_name_map company_code (company_code ++ " " ++ country)
  | None =>
      Py.title (Py.replace_char "-" " " (Py.split_first "_" filename))
  end.

(** [company_pdfs]: a dictionary in insertion order. *)
Definition CompanyPdfs := list (string * list PdfRef).

(** Lines 68-75: create the key when it is new, then append. *)
Fixpoint add_pdf (company_pdfs : CompanyPdfs) (company_name : string)
         (r : PdfRef) : CompanyPdfs :=
  match company_pdfs with
  | [] => [(company_name, [r])]
  | (k, refs) :: rest =>
      if String.eqb k company_name
      then (k, (refs ++ [r])%list) :: rest
      else (k, refs) :: add_pdf rest company_name r
  end.

Definition hidden (d : string) : bool :=
  match d with
  | String "." _ => true
  | _ => false
  end.

Definition collect_files (directory_path country : string)
           (company_pdfs : CompanyPdfs) (pdf_files : list string) : CompanyPdfs :=
  fold_left
    (fun acc name =>
       let country_path := Py.path_join directory_path country in
       let pdf_path := Py.path_join country_path name in
       add_pdf acc (company_name_of name country)
               (mkPdfRef pdf_path country name))
    pdf_files company_pdfs.

Definition collect_gcc_company_pdfs (directory_path : string) (l : Listing)
  : CompanyPdfs :=
  if negb (dir_exists l) then []
  else
    let country_dirs := filter (fun d => negb (hidden (fst d))) (subdirs l) in
    fold_left
      (fun acc d => collect_files directory_path (fst d) acc (snd d))
      country_dirs [].

End Collector.

(** ** Chunker: [create_chunks_from_text] *)

Module Chunker.

Definition chunk_size : nat := 1500.
Definition chunk_overlap : nat := 200.

(** [re.search(r'20\d{2}', filename)]: the leftmost "20" followed by two
    (ASCII) digits. *)
Fixpoint year_match (filename : string) : option string :=
  match filename with
  | EmptyString => None
  | String c rest =>
      match filename with
      | String "2" (String "0" (String d1 (String d2 _))) =>
          if Py.is_digit d1 && Py.is_digit d2
          then Some (Py.take 4 filename)
          else year_match rest
      | _ => year_match rest
      end
  end.

(** The body of the loop at lines 115-128 for one offset [i]. *)
Definition chunk_step (txt : string) (pdf_info : PdfInfo) (year : string)
           (chunks : list Chunk) (i : nat) : list Chunk :=
  let chunk_text := Py.slice txt i (i + chunk_size) in
  if String.length chunk_text <? 100 then chunks
  else
    let chunk_id := List.length chunks + 1 in
    (chunks ++ [ mkChunk chunk_text (Py.str chunk_id) (filename pdf_info)
                         (company pdf_info) (country pdf_info) year ])%list.

Definition create_chunks_from_text (txt : string) (pdf_info : PdfInfo)
  : list Chunk :=
  let year :=
    match year_match (filename pdf_info) with
    | Some y => y
    | None => "2024"
    end in
  match txt with
  | EmptyString => []
  | _ =>
      fold_left (chunk_step txt pdf_info year)
                (Py.range 0 (String.length txt) (chunk_size - chunk_overlap))
                []
  end.

End Chunker.

(** ** Company code: [generate_company_code] *)

Module Code.

Definition company_abbrev : list (string * string) :=
  [ ("First Abu Dhabi Bank", "FAB");
    ("Emirates NBD", "ENBD");
    ("Abu Dhabi Commercial Bank", "ADCB");
    ("Dubai Islamic Bank", "DIB");
    ("Emirates Islamic Bank", "EIB");
    ("Commercial Bank of Dubai", "CBD");
    ("Abu Dhabi Islamic Bank", "ADIB");
    ("Tabreed", "TAB");
    ("Sohar International Bank", "SIB");
    ("EDO", "EDO");
    ("Commercial Bank", "CBQ");
    ("Bank of Bahrain and Kuwait", "BBK");
    ("National Bank of Bahrain", "NBB");
    ("Al Ahli Bank of Kuwait", "ABK");
    ("National Bank of Kuwait", "NBK");
    ("Bank Muscat", "BM") ].

Definition generate_company_code (company_name : string) : string :=
  match company_name with
  | EmptyString => "UNK"
  | _ =>
      if Py.dict_mem company_abbrev company_name
      then Py.dict_get company_abbrev company_name ""
      else
        let words := Py.split_ws company_name in
        let code :=
          if 3 <=? List.length words
          then Py.join (map (Py.take 1) (firstn 3 words))
          else Py.take 4 (Py.join (map (Py.take 2) words)) in
        Py.upper code
  end.

End Code.

(** ** Question synthesizer: [generate_questions] *)

Module Synth.

(** The first argument: a chunk dictionary, or a bare company name. *)
Inductive Data :=
| OfChunk (c : Chunk)
| OfCompany (company_name : string).

(** The parts of the prompt template that vary. *)
Record Prompt := mkPrompt {
  num_questions : Z;
  prompt_context : string;
  prompt_text : string
}.

(** What lines 226-243 leave behind: the request or the access to its
    content raised (caught by [except Exception]); [json.loads] rejected
    the cleaned response (caught by [except json.JSONDecodeError]); or
    [json.loads] returned a value. *)
Inductive Outcome :=
| Raised
| DecodeError (result : string)
| Decoded (questions : json).

Definition Client := Prompt -> Outcome.

(** Exceptions of the formatting loop; none of them is a
    [JSONDecodeError], so each one reaches the outer handler. *)
Inductive Exn := TypeError | AttributeError | KeyError.

Fixpoint lookup (fields : list (string * json)) (key : string) : option json :=
  match fields with
  | [] => None
  | (k, v) :: rest => if String.eqb k key then Some v else lookup rest key
  end.

(** [obj.get(key, default)] *)
Definition get_default (fields : list (string * json)) (key : string)
           (default : json) : json :=
  match lookup fields key with
  | Some v => v
  | None => default
  end.

(** [obj[key]] *)
Definition subscript (fields : list (string * json)) (key : string)
  : Exn + json :=
  match lookup fields key with
  | Some v => inr v
  | None => inl KeyError
  end.

Fixpoint chars (s : string) : list json :=
  match s with
  | EmptyString => []
  | String c s' => JStr (String c EmptyString) :: chars s'
  end.

(** [for question in questions]: the items a decoded value iterates
    over.  A list gives its elements, a dictionary its keys, a string its
    characters; the other values are not iterable. *)
Definition iterate (questions : json) : Exn + list json :=
  match questions with
  | JArr items => inr items
  | JObj fields => inr (map (fun kv => JStr (fst kv)) fields)
  | JStr s => inr (chars s)
  | JNull | JBool _ | JNum _ => inl TypeError
  end.

Definition source_type_mapping : list (string * string) :=
  [ ("Financial Performance", "financial_data");
    ("Market Position", "market_data");
    ("Risk Factors", "risk_data");
    ("Corporate Governance", "governance_data");
    ("Business Strategy", "business_strategy");
    ("Operational Metrics", "operational_data");
    ("Sustainability", "sustainability");
    ("Key Personnel", "personnel_data") ].

(** [source_type_mapping.get(category, "miscellaneous")]: a list or a
    dictionary is unhashable. *)
Definition source_type_of (cat : json) : Exn + string :=
  match cat with
  | JStr s => inr (Py.dict_get source_type_mapping s "miscellaneous")
  | JArr _ | JObj _ => inl TypeError
  | JNull | JBool _ | JNum _ => inr "miscellaneous"
  end.

(** [category != "Key Personnel"] *)
Definition not_key_personnel (cat : json) : bool :=
  match cat with
  | JStr s => negb (String.eqb s "Key Personnel")
  | _ => true
  end.

(** What lines 179-199 bind. *)
Record Context := mkContext {
  is_chunk : bool;
  company_name : string;
  ctx_country : string;
  ctx_report_year : string;
  ctx_source_file : string;
  ctx_chunk_id : string;
  ctx_text : string;
  ctx_prompt_context : string
}.

Definition context_of (data : Data) : Context :=
  match data with
  | OfChunk c =>
      mkContext true (chunk_company c) (chunk_country c) (report_year c)
                (source_file c) (chunk_id c) (text c)
                ("the following text from a " ++ chunk_country c
                 ++ " company financial report")
  | OfCompany name =>
      let country := "GCC" in
      mkContext false name country "2024"
                (Py.replace_char " " "_" name ++ "_Report_2024.pdf") "0"
                ("Information about key executives and board members at "
                 ++ name ++ ", a company from " ++ country ++ ".")
                ("key personnel at " ++ name ++ " (a company from "
                 ++ country ++ ")")
  end.

(** Lines 251-286 for one item; [id_counter] is already incremented. *)
Definition format_question (ctx : Context) (company_code : string)
           (id_counter : nat) (q : json) : Exn + Question :=
  match q with
  | JObj fields =>
      let cat := get_default fields "category" (JStr "Miscellaneous") in
      match source_type_of cat with
      | inl e => inl e
      | inr st =>
          let '(cat, st) :=
            if negb (is_chunk ctx) && not_key_personnel cat
            then (JStr "Key Personnel", "personnel_data")
            else (cat, st) in
          match subscript fields "question" with
          | inl e => inl e
          | inr q_text =>
          match subscript fields "options" with
          | inl e => inl e
          | inr q_options =>
          match subscript fields "answer" with
          | inl e => inl e
          | inr q_answer =>
              inr (mkQuestion
                     (company_code ++ Py.str id_counter)
                     q_text q_options q_answer
                     (mkMetadata
                        (get_default fields "difficulty" (JStr "medium"))
                        (company_name ctx) (ctx_report_year ctx)
                        (ctx_source_file ctx) (ctx_chunk_id ctx) st cat))
          end end end
      end
  | _ => inl AttributeError
  end.

(** The loop at lines 248-287.  [id_counter] is a local variable: it
    keeps every increment made before an exception leaves the loop. *)
Fixpoint format_loop (ctx : Context) (company_code : string)
         (items : list json) (id_counter : nat)
         (formatted_questions : list Question)
  : (Exn + list Question) * nat :=
  match items with
  | [] => (inr formatted_questions, id_counter)
  | q :: rest =>
      let id_counter := id_counter + 1 in
      match format_question ctx company_code id_counter q with
      | inl e => (inl e, id_counter)
      | inr fq =>
          format_loop ctx company_code rest id_counter
                      (formatted_questions ++ [fq])%list
      end
  end.

Definition generate_questions (data : Data) (openai_client : Client)
           (company_code : string) (id_counter : nat) (num_questions : Z)
  : list Question * nat :=
  let ctx := context_of data in
  let prompt :=
    mkPrompt num_questions (ctx_prompt_context ctx) (ctx_text ctx) in
  match openai_client prompt with
  | Raised => ([], id_counter)
  | DecodeError _ => ([], id_counter)
  | Decoded questions =>
      match iterate questions with
      | inl _ => ([], id_counter)
      | inr items =>
          match format_loop ctx company_code items id_counter [] with
          | (inr formatted_questions, id_counter) =>
              (formatted_questions, id_counter)
          | (inl _, id_counter) => ([], id_counter)
          end
      end
  end.

End Synth.

(** ** Aggregator and writer: [process_company_documents] and [main] *)

Module Driver.

Import Synth.

Record SummaryRow := mkSummaryRow {
  row_company : string;
  row_code : string;
  row_country : string;
  row_pdfs_processed : nat;
  row_questions_generated : nat;
  row_categories : string
}.

(** What a run does to the outside, in order. *)
Inductive Event :=
| Extract (pdf_path : string)
| Request (data : Data) (num_questions : Z)
| Makedirs (dir : string)
| WriteJsonl (file : string) (lines : list Question)
| WriteCsv (file : string) (rows : list SummaryRow).

(** [requests] counts the generation requests issued so far in the run;
    the service answers the k-th request of a run with [service k]. *)
Record World := mkWorld {
  requests : nat;
  trace : list Event
}.

Definition emit (e : Event) (w : World) : World :=
  mkWorld (requests w) (trace w ++ [e])%list.

Definition initial_world : World := mkWorld 0 [].

(** The local variables of [process_company_documents] that its loops
    update. *)
Record Locals := mkLocals {
  all_questions : list Question;
  id_counter : nat;
  questions_needed : Z;
  world : World
}.

Section Oracles.

(** [extract_text_from_pdf]: the text of the file at a path, [None]
    when reading it raised. *)
Variable extract_text_from_pdf : string -> option string.

(** The generation service behind [openai_client]. *)
Variable service : nat -> Client.

(** One generation call (lines 344-346 and 355-357), with its event. *)
Definition call (data : Data) (company_code : string) (counter : nat)
           (n : Z) (w : World) : (list Question * nat) * World :=
  (generate_questions data (service (requests w)) company_code counter n,
   mkWorld (requests w + 1) (trace w ++ [Request data n])%list).

(** The loop at lines 339-349; running out of the recursion on the
    [<= 0] test is the [break]. *)
Fixpoint chunk_loop (company_code : string)
         (chunks_to_use : list Chunk) (st : Locals) : Locals :=
  match chunks_to_use with
  | [] => st
  | chunk :: rest =>
      let questions_to_generate := Z.min 5 (questions_needed st) in
      if (questions_to_generate <=? 0)%Z then st
      else
        let '((questions, counter), w) :=
          call (OfChunk chunk) company_code (id_counter st)
               questions_to_generate (world st) in
        chunk_loop company_code rest
          (mkLocals (all_questions st ++ questions)%list counter
                    (questions_needed st - Z.of_nat (List.length questions))
                    w)
  end.

(** The loop at lines 318-349. *)
Fixpoint pdf_loop (company_name company_code : string) (quota : Z)
         (pdf_infos : list PdfRef) (st : Locals) : Locals :=
  match pdf_infos with
  | [] => st
  | pdf_info :: rest =>
      let pdf_path := ref_path pdf_info in
      let st := mkLocals (all_questions st) (id_counter st)
                         (questions_needed st)
                         (emit (Extract pdf_path) (world st)) in
      match extract_text_from_pdf pdf_path with
      | None | Some EmptyString =>
          pdf_loop company_name company_code quota rest st
      | Some document_text =>
          let info := mkPdfInfo pdf_path (ref_country pdf_info)
                                (ref_filename pdf_info) company_name in
          let chunks := Chunker.create_chunks_from_text document_text info in
          let needed := (quota - Z.of_nat (List.length (all_questions st)))%Z in
          if (needed <=? 0)%Z
          then mkLocals (all_questions st) (id_counter st) needed (world st)
          else
            let chunks_to_use :=
              firstn (Nat.min 5 (List.length chunks)) chunks in
            pdf_loop company_name company_code quota rest
              (chunk_loop company_code chunks_to_use
                 (mkLocals (all_questions st) (id_counter st) needed
                           (world st)))
      end
  end.

(** Lines 351-358. *)
Definition personnel_fallback (company_name company_code : string)
           (quota : Z) (st : Locals) : Locals :=
  if (Z.of_nat (List.length (all_questions st)) <? quota)%Z then
    let needed := (quota - Z.of_nat (List.length (all_questions st)))%Z in
    let '((personnel_questions, counter), w) :=
      call (OfCompany company_name) company_code (id_counter st) needed
           (world st) in
    mkLocals (all_questions st ++ personnel_questions)%list counter needed w
  else st.

Definition questions_file (country_dir company_name : string) : string :=
  Py.path_join country_dir
    (Py.replace_char " " "_" company_name ++ "_questions.jsonl").

(** Lines 305-358: the locals after the document loop and the
    fallback.  [questions_needed] is unbound until line 332 assigns
    it; 0 stands for that. *)
Definition generation (company_name : string) (pdf_infos : list PdfRef)
           (quota : Z) (w : World) : Locals :=
  let company_code := Code.generate_company_code company_name in
  personnel_fallback company_name company_code quota
    (pdf_loop company_name company_code quota pdf_infos
              (mkLocals [] 1000 0 w)).

(** [None] is the [IndexError] of [pdf_infos[0]] on an empty list. *)
Definition process_company_documents (company_name : string)
           (pdf_infos : list PdfRef) (output_dir : string)
           (questions_per_company : Z) (w : World)
  : option (list Question * World) :=
  match pdf_infos with
  | [] => None
  | first :: _ =>
      let country := ref_country first in
      let w := emit (Makedirs output_dir) w in
      let country_dir := Py.path_join output_dir country in
      let w := emit (Makedirs country_dir) w in
      let st := generation company_name pdf_infos questions_per_company w in
      let output_file := questions_file country_dir company_name in
      Some (all_questions st,
            emit (WriteJsonl output_file (all_questions st)) (world st))
  end.

(** ** [main] *)

Record Args := mkArgs {
  input_dir : string;
  output_dir : string;
  openai_api_key : option string;
  questions_per_company : Z
}.

Inductive Exit :=
| Finished
| NoApiKey
| NoPdfs
| Uncaught.

Definition truthy (s : option string) : bool :=
  match s with
  | None | Some EmptyString => false
  | Some _ => true
  end.

(** The loop at lines 395-399. *)
Fixpoint companies_loop (company_pdfs : Collector.CompanyPdfs)
         (out : string) (quota : Z) (all : list Question) (w : World)
  : option (list Question * World) :=
  match company_pdfs with
  | [] => Some (all, w)
  | (name, pdf_infos) :: rest =>
      match process_company_documents name pdf_infos out quota w with
      | None => None
      | Some (company_questions, w) =>
          companies_loop rest out quota (all ++ company_questions)%list w
      end
  end.

Fixpoint insert_sorted (s : string) (l : list string) : list string :=
  match l with
  | [] => [s]
  | x :: rest =>
      match String.compare s x with
      | Lt => s :: l
      | Eq => l
      | Gt => x :: insert_sorted s rest
      end
  end.

(** [', '.join(sorted(set(...)))] over the categories; a category that
    is not a string makes [sorted] or [join] raise [TypeError]. *)
Fixpoint category_strings (qs : list Question) : option (list string) :=
  match qs with
  | [] => Some []
  | q :: rest =>
      match category (metadata q), category_strings rest with
      | JStr s, Some l => Some (s :: l)
      | _, _ => None
      end
  end.

Definition categories_cell (qs : list Question) : option string :=
  match category_strings qs with
  | Some l => Some (String.concat ", " (fold_right insert_sorted [] l))
  | None => None
  end.

(** The loop at lines 412-424. *)
Fixpoint summary_loop (company_pdfs : Collector.CompanyPdfs)
         (all : list Question) : option (list SummaryRow) :=
  match company_pdfs with
  | [] => Some []
  | (name, pdf_infos) :: rest =>
      match pdf_infos with
      | [] => None
      | first :: _ =>
          let company_questions :=
            filter (fun q => String.eqb (md_company (metadata q)) name) all in
          match categories_cell company_questions with
          | None => None
          | Some cell =>
              match summary_loop rest all with
              | None => None
              | Some rows =>
                  Some (mkSummaryRow name (Code.generate_company_code name)
                          (ref_country first) (List.length pdf_infos)
                          (List.length company_questions) cell :: rows)
              end
          end
      end
  end.

(** [Uncaught] stands for an exception that leaves [main]: the
    [IndexError] of an empty group (the collector makes none) or the
    [TypeError] of the summary step. *)
Definition main (args : Args) (env_api_key : option string)
           (l : Collector.Listing) : Exit * World :=
  let api_key :=
    if truthy (openai_api_key args) then openai_api_key args
    else env_api_key in
  if negb (truthy api_key) then (NoApiKey, initial_world)
  else
    let company_pdfs :=
      Collector.collect_gcc_company_pdfs (input_dir args) l in
    match company_pdfs with
    | [] => (NoPdfs, initial_world)
    | _ =>
        match companies_loop company_pdfs (output_dir args)
                             (questions_per_company args) [] initial_world with
        | None => (Uncaught, initial_world)
        | Some (all, w) =>
            let combined_file :=
              Py.path_join (output_dir args) "GCC_market_dataset.jsonl" in
            let w := emit (WriteJsonl combined_file all) w in
            match summary_loop company_pdfs all with
            | None => (Uncaught, w)
            | Some summary_data =>
                let summary_file :=
                  Py.path_join (output_dir args) "processing_summary.csv" in
                (Finished, emit (WriteCsv summary_file summary_data) w)
            end
        end
    end.

End Oracles.

End Driver.

(** ** Text extraction: [extract_text_from_pdf] *)

Module Extractor.

(** What [PyPDF2] makes of the file at a path: opening or parsing it
    raises, or it has pages; extracting the text of a page gives a string
    or raises ([None]). *)
Inductive Pdf :=
| Unreadable
| Readable (pages : list (option string)).

(** The loop at lines 89-90; an exception leaves it for the handler of
    line 92. *)
Fixpoint extract_pages (pages : list (option string)) (text : string)
  : option string :=
  match pages with
  | [] => Some text
  | None :: _ => None
  | Some page_text :: rest =>
      extract_pages rest (text ++ (page_text ++ String "010" (String "010" "")))
  end.

Definition extract_text_from_pdf (pdf : Pdf) : option string :=
  match pdf with
  | Unreadable => None
  | Readable pages => extract_pages pages ""
  end.

End Extractor.

(** ** Cleaning and decoding a response: lines 232-243 *)

Module Response.

(** [s.strip()], on ASCII white space. *)
Fixpoint lstrip (s : string) : string :=
  match s with
  | EmptyString => EmptyString
  | String c s' => if Py.is_space c then lstrip s' else s
  end.

Fixpoint rstrip (s : string) : string :=
  match s with
  | EmptyString => EmptyString
  | String c s' =>
      match rstrip s' with
      | EmptyString => if Py.is_space c then EmptyString else String c EmptyString
      | r => String c r
      end
  end.

Definition strip (s : string) : string := rstrip (lstrip s).

(** [s[n:]] *)
Fixpoint drop (n : nat) (s : string) : string :=
  match n, s with
  | 0, _ => s
  | S n', String _ s' => drop n' s'
  | S _, EmptyString => EmptyString
  end.

Definition fence : string := "```".

(** ["```" in s] *)
Fixpoint contains_fence (s : string) : bool :=
  String.prefix fence s
  || match s with
     | EmptyString => false
     | String _ s' => contains_fence s'
     end.

(** The pattern [```(?:json)?\s*([\s\S]*?)\s*```], read from its end.
    [closes s]: the tail [\s*```] matches at the start of [s]. *)
Fixpoint closes (s : string) : bool :=
  String.prefix fence s
  || match s with
     | EmptyString => false
     | String c s' => Py.is_space c && closes s'
     end.

(** [([\s\S]*?)\s*```] at the start of [s]: the lazy group takes no
    character, then one more at each retry, until the tail matches. *)
Fixpoint lazy_group (s : string) : option string :=
  if closes s then Some EmptyString
  else match s with
       | EmptyString => None
       | String c s' => option_map (String c) (lazy_group s')
       end.

(** [\s*([\s\S]*?)\s*```] at the start of [s]: the greedy white space
    takes all it can, then gives back one character at each retry. *)
Fixpoint after_tag (s : string) : option string :=
  match s with
  | EmptyString => lazy_group s
  | String c s' =>
      if Py.is_space c
      then match after_tag s' with
           | Some g => Some g
           | None => lazy_group s
           end
      else lazy_group s
  end.

(** The whole pattern at the start of [s], group 1: the optional tag is
    tried first, then skipped. *)
Definition match_here (s : string) : option string :=
  if String.prefix fence s then
    let r := drop 3 s in
    if String.prefix "json" r
    then match after_tag (drop 4 r) with
         | Some g => Some g
         | None => after_tag r
         end
    else after_tag r
  else None.

(** [re.search]: the leftmost position where the pattern matches. *)
Fixpoint search (s : string) : option string :=
  match match_here s with
  | Some g => Some g
  | None =>
      match s with
      | EmptyString => None
      | String _ s' => search s'
      end
  end.

(** Lines 235-239, on the stripped content. *)
Definition clean_fences (result : string) : string :=
  if String.prefix fence result && contains_fence result
  then match search result with
       | Some g => strip g
       | None => result
       end
  else result.

(** Lines 232-239. *)
Definition clean_response (content : string) : string :=
  clean_fences (strip content).

(** Lines 226-243 over a decoder: [response] is the content of the
    service's answer, [None] when the request or the access to the content
    raised; [json_loads] is [json.loads], [None] for [JSONDecodeError]. *)
Definition decode (json_loads : string -> option json)
           (response : option string) : Synth.Outcome :=
  match response with
  | None => Synth.Raised
  | Some content =>
      let result := clean_response content in
      match json_loads result with
      | Some questions => Synth.Decoded questions
      | None => Synth.DecodeError result
      end
  end.

End Response.


(** * Vocabulary of the properties *)

(** ** Chunker *)

(** The chunk made of the window number [k] (from 0) of [txt]. *)
Definition window_chunk (txt : string) (pdf_info : PdfInfo) (year : string)
           (k : nat) : Chunk :=
  mkChunk (Py.slice txt (k * 1300) (k * 1300 + Chunker.chunk_size))
          (Py.str (k + 1))
          (filename pdf_info) (company pdf_info) (country pdf_info) year.

(** How many windows survive for a text of length [L]. *)
Definition kept_count (L : nat) : nat :=
  if L <? 100 then 0 else (L - 100) / 1300 + 1.

Definition year_of (pdf_info : PdfInfo) : string :=
  match Chunker.year_match (filename pdf_info) with
  | Some y => y
  | None => "2024"
  end.

(** ** Collector *)

(** The reference [r] is in the group named [name]. *)
Definition holds (company_pdfs : Collector.CompanyPdfs) (name : string)
           (r : PdfRef) : Prop :=
  exists refs, In (name, refs) company_pdfs /\ In r refs.

(** ** Driving loop *)

(** The generation requests in a trace, in order. *)
Definition request_log (t : list Driver.Event) : list (Synth.Data * Z) :=
  flat_map (fun e => match e with
                     | Driver.Request d n => [(d, n)]
                     | _ => []
                     end) t.

Definition log (st : Driver.Locals) : list (Synth.Data * Z) :=
  request_log (Driver.trace (Driver.world st)).

Definition count (st : Driver.Locals) : Z :=
  Z.of_nat (List.length (Driver.all_questions st)).

(** The chunks of one document that the loop at line 339 iterates over. *)
Definition usable_chunks (extract : string -> option string) (name : string)
           (r : PdfRef) : list Chunk :=
  match extract (ref_path r) with
  | None | Some EmptyString => []
  | Some document_text =>
      let chunks :=
        Chunker.create_chunks_from_text
          document_text
          (mkPdfInfo (ref_path r) (ref_country r) (ref_filename r) name) in
      firstn (Nat.min 5 (List.length chunks)) chunks
  end.

Definition chunks_within_cap (extract : string -> option string)
           (name : string) (pdf_infos : list PdfRef) : list Chunk :=
  flat_map (usable_chunks extract name) pdf_infos.

(** The requests the chunk loop issues when every call returns as many
    questions as it asks for, and what is still needed afterwards. *)
Fixpoint plan (needed : Z) (chunks : list Chunk) : list (Synth.Data * Z) :=
  match chunks with
  | [] => []
  | c :: rest =>
      let n := Z.min 5 needed in
      if (n <=? 0)%Z then []
      else (Synth.OfChunk c, n) :: plan (needed - n) rest
  end.

Fixpoint remaining (needed : Z) (chunks : list Chunk) : Z :=
  match chunks with
  | [] => needed
  | c :: rest =>
      let n := Z.min 5 needed in
      if (n <=? 0)%Z then needed else remaining (needed - n) rest
  end.

(** Every chunk-mode call returns exactly the number of questions it was
    asked for. *)
Definition exact_service (service : nat -> Synth.Client) : Prop :=
  forall k c code counter n,
    (0 < n <= 5)%Z ->
    List.length
      (fst (Synth.generate_questions (Synth.OfChunk c) (service k) code counter n))
    = Z.to_nat n.

(** ** Identifiers *)

(** The questions carry the numbers [ks], rendered after the company code;
    the numbers grow strictly and lie in [(lo, hi]]. *)
Definition numbered (code : string) (lo hi : nat) (qs : list Question) : Prop :=
  exists ks,
    map id qs = map (fun k => code ++ Py.str k) ks
    /\ StronglySorted lt ks
    /\ Forall (fun k => lo < k <= hi) ks.

(** No call of the service drops a batch after numbering part of it: the
    counter a call returns is the one it was given plus the number of
    questions it returns. *)
Definition no_dropped_batch (service : nat -> Synth.Client) : Prop :=
  forall k data code counter n,
    let r := Synth.generate_questions data (service k) code counter n in
    snd r = counter + List.length (fst r).

(** ** The whole run *)

(** The files a trace writes, in order. *)
Definition files_written (t : list Driver.Event) : list string :=
  flat_map (fun e => match e with
                     | Driver.WriteJsonl f _ => [f]
                     | Driver.WriteCsv f _ => [f]
                     | _ => []
                     end) t.



(** Events are only ever appended. *)
Definition extends (w w' : Driver.World) : Prop :=
  exists t, Driver.trace w' = (Driver.trace w ++ t)%list.

(** Where the questions of the company [kv] are written in trace [t]. *)
Definition written_for (out : string) (t : list Driver.Event)
           (kv : string * list PdfRef) (qs : list Question) : Prop :=
  exists first rest,
    snd kv = first :: rest
    /\ In (Driver.WriteJsonl
             (Py.path_join (Py.path_join out (ref_country first))
                           (Py.replace_char " " "_" (fst kv)
                            ++ "_questions.jsonl"))
             qs) t.

(** ** Sample inputs *)

Definition text_of_length (n : nat) : string := String.concat "" (repeat "a" n).

Definition sample_info : PdfInfo :=
  mkPdfInfo "files/UAE/TAB_Report_2023.pdf" "UAE" "TAB_Report_2023.pdf" "Tabreed".

Definition sample_ref : PdfRef :=
  mkPdfRef "files/UAE/TAB_Report_2023.pdf" "UAE" "TAB_Report_2023.pdf".

Definition sample_chunk : Chunk :=
  mkChunk (text_of_length 150) "1" "TAB_Report_2023.pdf" "Tabreed" "UAE" "2023".

(** A well-formed question object, and one that lacks its answer. *)
Definition sample_item : json :=
  JObj [ ("question", JStr "Who chairs the board?");
         ("options", JArr [JStr "A. W"; JStr "B. X"; JStr "C. Y"; JStr "D. Z"]);
         ("answer", JStr "B");
         ("difficulty", JStr "easy");
         ("category", JStr "Risk Factors") ].

Definition sample_item_without_answer : json :=
  JObj [ ("question", JStr "Who chairs the board?");
         ("options", JArr [JStr "A. W"; JStr "B. X"; JStr "C. Y"; JStr "D. Z"]) ].

(** A service that answers every request with as many well-formed question
    objects as the prompt asks for. *)
Definition obliging_service (k : nat) (p : Synth.Prompt) : Synth.Outcome :=
  Synth.Decoded (JArr (repeat sample_item (Z.to_nat (Synth.num_questions p)))).

(** A service whose first answer has an incomplete second object and whose
    later answers hold one well-formed object. *)
Definition faulty_service (k : nat) (p : Synth.Prompt) : Synth.Outcome :=
  match k with
  | 0 => Synth.Decoded (JArr [sample_item; sample_item_without_answer])
  | _ => Synth.Decoded (JArr [sample_item])
  end.

(** Extraction that gives 2750 characters for every file, and one that
    fails for every file. *)
Definition long_report (pdf_path : string) : option string :=
  Some (text_of_length 2750).

Definition short_report (pdf_path : string) : option string :=
  Some (text_of_length 150).

Definition unreadable (pdf_path : string) : option string := None.

Definition sample_listing : Collector.Listing :=
  Collector.mkListing true [("UAE", ["FAB_Report_2023.pdf"; "randomfile.pdf"])].

Definition sample_args : Driver.Args :=
  Driver.mkArgs "files" "output" (Some "key") 2.

(** ** Further vocabulary *)


(** [s] has no lower-case (ASCII) letter. *)
Fixpoint no_lowercase (s : string) : bool :=
  match s with
  | EmptyString => true
  | String c s' => negb (Py.is_lower c) && no_lowercase s'
  end.


(** The number of references in a collection. *)
Definition pdf_count (company_pdfs : Collector.CompanyPdfs) : nat :=
  List.length (concat (map snd company_pdfs)).

(** The source type that goes with a category. *)
Definition source_type_for (cat : json) : string :=
  match cat with
  | JStr s => Py.dict_get Synth.source_type_mapping s "miscellaneous"
  | _ => "miscellaneous"
  end.

(** The value of a key of a question object, [default] when the key is
    missing or the item is no object. *)
Definition field (key : string) (default : json) (item : json) : json :=
  match item with
  | JObj fields => Synth.get_default fields key default
  | _ => default
  end.

Definition has_key (key : string) (item : json) : bool :=
  match item with
  | JObj fields =>
      match Synth.lookup fields key with
      | Some _ => true
      | None => false
      end
  | _ => false
  end.

(** A question object with its three required keys and a category that
    can be looked up (not a list, not a dictionary). *)
Definition complete (item : json) : bool :=
  has_key "question" item && has_key "options" item && has_key "answer" item
  && match field "category" JNull item with
     | JArr _ | JObj _ => false
     | _ => true
     end.

Fixpoint all_space (s : string) : bool :=
  match s with
  | EmptyString => true
  | String c s' => Py.is_space c && all_space s'
  end.

Fixpoint no_backtick (s : string) : bool :=
  match s with
  | EmptyString => true
  | String c s' => negb (Ascii.eqb c "`") && no_backtick s'
  end.

(** A response that wraps [body] in a fenced block: the opening fence, the
    tag "json" or none, white space, the body, white space, the closing
    fence, and whatever follows. *)
Definition fenced (tagged : bool) (w1 body w2 tail : string) : string :=
  "```" ++ (if tagged then "json" else "") ++ w1 ++ body ++ w2 ++ "```" ++ tail.

(** A decoder that knows one text, the empty array. *)
Definition sample_loads (s : string) : option json :=
  if String.eqb s "[]" then Some (JArr []) else None.

(** A request of the run of company [name] has a sound size: a chunk-mode
    request asks for 1 to 5 questions, a personnel-mode request is about
    [name] and asks for at least one. *)
Definition request_size_ok (name : string) (p : Synth.Data * Z) : Prop :=
  match fst p with
  | Synth.OfChunk _ => (1 <= snd p <= 5)%Z
  | Synth.OfCompany nm => nm = name /\ (1 <= snd p)%Z
  end.

(** The output file of the company [kv] under the output directory [out]. *)
Definition company_file (out : string) (kv : string * list PdfRef) : string :=
  match snd kv with
  | first :: _ =>
      Py.path_join (Py.path_join out (ref_country first))
                   (Py.replace_char " " "_" (fst kv) ++ "_questions.jsonl")
  | [] => ""
  end.

(** The questions [qs] all name the company [kv]. *)
Definition owned (kv : string * list PdfRef) (qs : list Question) : Prop :=
  Forall (fun q => md_company (metadata q) = fst kv) qs.

(** The summary row of the company [kv] whose run returned [qs]. *)
Definition row_of (kv : string * list PdfRef) (qs : list Question)
           (row : Driver.SummaryRow) : Prop :=
  Driver.row_company row = fst kv
  /\ Driver.row_code row = Code.generate_company_code (fst kv)
  /\ option_map ref_country (hd_error (snd kv)) = Some (Driver.row_country row)
  /\ Driver.row_pdfs_processed row = List.length (snd kv)
  /\ Driver.row_questions_generated row = List.length qs
  /\ Driver.categories_cell qs = Some (Driver.row_categories row).

(** The trace [w'] writes the files of [w] and no other. *)
Definition same_files (w w' : Driver.World) : Prop :=
  files_written (Driver.trace w') = files_written (Driver.trace w).


(** * Properties *)

(** ** Chunker *)

Section ChunkerFacts.

Import Chunker.

Lemma stride_value : chunk_size - chunk_overlap = 1300.
Proof. reflexivity. Qed.

Lemma length_substring (s : string) :
  forall n m, String.length (substring n m s) = Nat.min m (String.length s - n).
Proof.
  induction s as [|c s IH]; intros [|n] [|m]; simpl; auto.
  rewrite IH. now rewrite Nat.sub_0_r.
Qed.

Lemma length_window (txt : string) (i : nat) :
  String.length (Py.slice txt i (i + chunk_size))
  = Nat.min chunk_size (String.length txt - i).
Proof.
  unfold Py.slice. rewrite length_substring.
  now replace (i + chunk_size - i) with chunk_size by lia.
Qed.

(** A window is kept exactly when at least 100 characters remain. *)
Lemma window_kept (txt : string) (i : nat) :
  (String.length (Py.slice txt i (i + chunk_size)) <? 100)
  = (String.length txt - i <? 100).
Proof.
  rewrite length_window. unfold chunk_size.
  destruct (Nat.ltb_spec (String.length txt - i) 100);
    [apply Nat.ltb_lt | apply Nat.ltb_ge]; lia.
Qed.

Variable txt : string.
Variable pdf_info : PdfInfo.
Variable year : string.

Lemma fold_kept (n : nat) :
  forall a acc,
    List.length acc = a ->
    (forall k, a <= k < a + n -> 100 <= String.length txt - k * 1300) ->
    fold_left (chunk_step txt pdf_info year)
              (map (fun k => 0 + k * 1300) (seq a n)) acc
    = (acc ++ map (window_chunk txt pdf_info year) (seq a n))%list.
Proof.
  induction n as [|n IH]; intros a acc Hlen Hk.
  - simpl. now rewrite app_nil_r.
  - cbn [seq map fold_left]. unfold chunk_step at 2.
    rewrite window_kept.
    replace (String.length txt - (0 + a * 1300) <? 100) with false
      by (symmetry; apply Nat.ltb_ge; specialize (Hk a); lia).
    rewrite IH.
    + rewrite <- app_assoc. f_equal. cbn [app]. f_equal.
      unfold window_chunk. now rewrite Hlen.
    + rewrite length_app. cbn [List.length]. lia.
    + intros k Hr. apply Hk. lia.
Qed.

Lemma fold_dropped (n : nat) :
  forall a acc,
    (forall k, a <= k < a + n -> String.length txt - k * 1300 < 100) ->
    fold_left (chunk_step txt pdf_info year)
              (map (fun k => 0 + k * 1300) (seq a n)) acc
    = acc.
Proof.
  induction n as [|n IH]; intros a acc Hk; [reflexivity|].
  cbn [seq map fold_left]. unfold chunk_step at 2.
  rewrite window_kept.
  replace (String.length txt - (0 + a * 1300) <? 100) with true
    by (symmetry; apply Nat.ltb_lt; specialize (Hk a); lia).
  apply IH. intros k Hr. apply Hk. lia.
Qed.

End ChunkerFacts.

Section ChunkerResult.

Import Chunker.

Lemma range_split (L : nat) :
  let N := (L - 0 + 1300 - 1) / 1300 in
  let K := kept_count L in
  seq 0 N = (seq 0 K ++ seq K (N - K))%list
  /\ (forall k, k < K -> 100 <= L - k * 1300)
  /\ (forall k, K <= k -> L - k * 1300 < 100).
Proof.
  intros N K.
  pose proof (Nat.div_mod_eq (L - 0 + 1300 - 1) 1300) as H1.
  pose proof (Nat.mod_upper_bound (L - 0 + 1300 - 1) 1300 ltac:(lia)) as H2.
  pose proof (Nat.div_mod_eq (L - 100) 1300) as H3.
  pose proof (Nat.mod_upper_bound (L - 100) 1300 ltac:(lia)) as H4.
  fold N in H1. subst K. unfold kept_count.
  destruct (Nat.ltb_spec L 100) as [Hs|Hs].
  - repeat split; intros; try lia. simpl. now rewrite Nat.sub_0_r.
  - set (q := (L - 100) / 1300) in *.
    assert (q + 1 <= N) by lia.
    repeat split; intros; try lia.
    transitivity (seq 0 ((q + 1) + (N - (q + 1))));
      [f_equal; lia | exact (seq_app (q + 1) (N - (q + 1)) 0)].
Qed.

(** The chunker returns the first [kept_count] windows, in order. *)
Lemma create_chunks_from_text_eq (txt : string) (pdf_info : PdfInfo) :
  create_chunks_from_text txt pdf_info
  = map (window_chunk txt pdf_info (year_of pdf_info))
        (seq 0 (kept_count (String.length txt))).
Proof.
  unfold create_chunks_from_text. fold (year_of pdf_info).
  destruct txt as [|c t] eqn:E; [reflexivity|]. rewrite <- E. clear E c t.
  unfold Py.range. rewrite stride_value.
  destruct (range_split (String.length txt)) as (Hs & Hk & Hd).
  rewrite Hs, map_app, fold_left_app.
  rewrite (fold_kept txt pdf_info _ _ 0 []);
    [|reflexivity|intros k Hr; apply Hk; lia].
  rewrite fold_dropped; [reflexivity|intros k Hr; apply Hd; lia].
Qed.

Lemma filter_keep_all {A} (f : A -> bool) (l : list A) :
  (forall x, In x l -> f x = true) -> filter f l = l.
Proof.
  induction l as [|x l IH]; intros H; [reflexivity|]. simpl.
  rewrite (H x (or_introl eq_refl)). f_equal. apply IH.
  intros y Hy. apply H. now right.
Qed.

Lemma filter_keep_none {A} (f : A -> bool) (l : list A) :
  (forall x, In x l -> f x = false) -> filter f l = [].
Proof.
  induction l as [|x l IH]; intros H; [reflexivity|]. simpl.
  rewrite (H x (or_introl eq_refl)). apply IH.
  intros y Hy. apply H. now right.
Qed.

(** The texts of the chunks are the windows of at least 100 characters,
    in the order of the offsets. *)
Lemma chunk_texts_are_long_windows (txt : string) (pdf_info : PdfInfo) :
  map text (create_chunks_from_text txt pdf_info)
  = filter (fun w => 100 <=? String.length w)
           (map (fun i => Py.slice txt i (i + 1500))
                (Py.range 0 (String.length txt) 1300)).
Proof.
  rewrite create_chunks_from_text_eq. unfold Py.range.
  destruct (range_split (String.length txt)) as (Hs & Hk & Hd).
  rewrite Hs. rewrite !map_app, filter_app.
  rewrite filter_keep_all, filter_keep_none.
  - rewrite app_nil_r, !map_map. apply map_ext. intros k. reflexivity.
  - intros w Hw. rewrite !map_map in Hw. apply in_map_iff in Hw.
    destruct Hw as (k & <- & Hin). apply in_seq in Hin.
    apply Nat.leb_gt. change 1500 with chunk_size.
    rewrite length_window. specialize (Hd k). unfold chunk_size. lia.
  - intros w Hw. rewrite !map_map in Hw. apply in_map_iff in Hw.
    destruct Hw as (k & <- & Hin). apply in_seq in Hin.
    apply Nat.leb_le. change 1500 with chunk_size.
    rewrite length_window. specialize (Hk k). unfold chunk_size. lia.
Qed.

Lemma nth_error_create_chunks (txt : string) (pdf_info : PdfInfo) (k : nat)
      (c : Chunk) :
  nth_error (create_chunks_from_text txt pdf_info) k = Some c ->
  c = window_chunk txt pdf_info (year_of pdf_info) k
  /\ k < kept_count (String.length txt).
Proof.
  rewrite create_chunks_from_text_eq, nth_error_map, nth_error_seq.
  destruct (Nat.ltb_spec k (kept_count (String.length txt))) as [Hk|Hk];
    simpl; intros H; inversion H. now split.
Qed.

End ChunkerResult.

Section ChunkerClaims.

Import Chunker.

(** C3.  For a non-empty text, the chunk at position k (from 0) carries
    the identifier k+1 and the slice of the text that starts at offset
    1300*k and is at most 1500 characters long; the identifiers are
    1, 2, ... without gaps; the chunk texts are exactly the windows of at
    least 100 characters, in window order; the same input gives the same
    chunks. *)
Theorem chunker_windows (txt : string) (pdf_info : PdfInfo) :
  txt <> "" ->
  let chunks := create_chunks_from_text txt pdf_info in
  (forall k c, nth_error chunks k = Some c ->
     chunk_id c = Py.str (k + 1)
     /\ text c = Py.slice txt (k * 1300) (k * 1300 + 1500)
     /\ String.length (text c) <= 1500)
  /\ map chunk_id chunks = map Py.str (seq 1 (List.length chunks))
  /\ map text chunks
     = filter (fun w => 100 <=? String.length w)
              (map (fun i => Py.slice txt i (i + 1500))
                   (Py.range 0 (String.length txt) 1300))
  /\ (forall txt' pdf_info',
        txt' = txt -> pdf_info' = pdf_info ->
        create_chunks_from_text txt' pdf_info' = chunks).
Proof.
  intros _ chunks. split; [|split; [|split]].
  - intros k c H. apply nth_error_create_chunks in H. destruct H as [-> _].
    repeat split. cbn [text window_chunk]. rewrite length_window.
    unfold chunk_size. lia.
  - subst chunks. rewrite create_chunks_from_text_eq.
    rewrite length_map, length_seq, map_map.
    rewrite <- (map_map (fun k => k + 1) Py.str). f_equal.
    rewrite <- seq_shift. apply map_ext. intros k. lia.
  - apply chunk_texts_are_long_windows.
  - intros txt' pdf_info' -> ->. reflexivity.
Qed.

Lemma chunker_windows_witness :
  text_of_length 1450 <> ""
  /\ map chunk_id (create_chunks_from_text (text_of_length 1450) sample_info)
     = map Py.str
           (seq 1 (List.length
                     (create_chunks_from_text (text_of_length 1450) sample_info))).
Proof.
  split; [discriminate|].
  apply (chunker_windows (text_of_length 1450) sample_info). discriminate.
Defined.

(** C2, as stated, fails: a text of 1450 characters gives two chunks, of
    1450 and 150 characters, and the first one is not the last. *)
Lemma not_every_chunk_but_last_is_full :
  ~ (forall txt pdf_info k c,
       nth_error (create_chunks_from_text txt pdf_info) k = Some c ->
       k + 1 < List.length (create_chunks_from_text txt pdf_info) ->
       String.length (text c) = 1500).
Proof.
  intros H.
  specialize (H (text_of_length 1450) sample_info 0).
  remember (create_chunks_from_text (text_of_length 1450) sample_info)
    as chunks eqn:E.
  assert (L : map (fun c => String.length (text c)) chunks = [1450; 150])
    by (subst chunks; vm_compute; reflexivity).
  destruct chunks as [|c0 [|c1 [|c2 rest]]]; try discriminate L.
  specialize (H c0 eq_refl). cbn [List.length] in H.
  injection L as L0 _. rewrite L0 in H.
  assert (1450 = 1500) by (apply H; lia). discriminate.
Qed.

(** C2, amended.  Every chunk except possibly the last two has a text of
    exactly 1500 characters. *)
Theorem every_chunk_but_last_two_is_full (txt : string) (pdf_info : PdfInfo)
        (k : nat) (c : Chunk) :
  nth_error (create_chunks_from_text txt pdf_info) k = Some c ->
  k + 2 < List.length (create_chunks_from_text txt pdf_info) ->
  String.length (text c) = 1500.
Proof.
  intros Hc Hk. apply nth_error_create_chunks in Hc. destruct Hc as [-> _].
  rewrite create_chunks_from_text_eq, length_map, length_seq in Hk.
  destruct (range_split (String.length txt)) as (_ & Hkept & _).
  specialize (Hkept (k + 2) Hk).
  cbn [text window_chunk]. rewrite length_window. unfold chunk_size. lia.
Qed.

Lemma every_chunk_but_last_two_is_full_witness :
  String.length
    (text (window_chunk (text_of_length 2750) sample_info "2023" 0)) = 1500.
Proof.
  apply (every_chunk_but_last_two_is_full (text_of_length 2750) sample_info 0).
  - vm_compute. reflexivity.
  - vm_compute. lia.
Defined.

End ChunkerClaims.

(** ** Question synthesizer *)

Section SynthFacts.

Import Synth.

(** What every formatted question carries, whatever the item was. *)
Lemma format_question_fields ctx code c q fq :
  format_question ctx code c q = inr fq ->
  id fq = code ++ Py.str c
  /\ md_company (metadata fq) = company_name ctx
  /\ md_report_year (metadata fq) = ctx_report_year ctx
  /\ md_source_file (metadata fq) = ctx_source_file ctx
  /\ source_chunk_id (metadata fq) = ctx_chunk_id ctx.
Proof.
  unfold format_question. destruct q; try discriminate.
  destruct (source_type_of _); try discriminate.
  destruct (negb (is_chunk ctx) && _);
    destruct (subscript fields "question"); try discriminate;
    destruct (subscript fields "options"); try discriminate;
    destruct (subscript fields "answer"); try discriminate;
    intros [= <-]; repeat split.
Qed.

(** Outside chunk mode the category and the source type are forced. *)
Lemma format_question_personnel ctx code c q fq :
  is_chunk ctx = false ->
  format_question ctx code c q = inr fq ->
  category (metadata fq) = JStr "Key Personnel"
  /\ source_type (metadata fq) = "personnel_data".
Proof.
  intros Hmode. unfold format_question. rewrite Hmode. cbn [negb andb].
  destruct q; try discriminate.
  destruct (source_type_of _) as [|st] eqn:Est; try discriminate.
  destruct (not_key_personnel _) eqn:Ekp;
    destruct (subscript fields "question"); try discriminate;
    destruct (subscript fields "options"); try discriminate;
    destruct (subscript fields "answer"); try discriminate;
    intros [= <-]; cbn [metadata category source_type]; auto.
  unfold not_key_personnel in Ekp.
  destruct (get_default fields "category" (JStr "Miscellaneous"));
    try discriminate.
  apply negb_false_iff, String.eqb_eq in Ekp. subst s.
  cbn in Est. injection Est as <-. auto.
Qed.

(** A property of single questions that formatting establishes holds of
    everything the loop returns. *)
Lemma format_loop_Forall (P : Question -> Prop) ctx code :
  (forall c q fq, format_question ctx code c q = inr fq -> P fq) ->
  forall items c acc out c',
    Forall P acc ->
    format_loop ctx code items c acc = (inr out, c') ->
    Forall P out.
Proof.
  intros HP. induction items as [|q items IH]; intros c acc out c' Hacc.
  - cbn. now intros [= <- _].
  - cbn [format_loop].
    destruct (format_question ctx code (c + 1) q) as [e|fq] eqn:E;
      [discriminate|].
    apply IH. apply Forall_app. split; [assumption|].
    constructor; [|constructor]. eapply HP, E.
Qed.

Lemma generate_questions_Forall (P : Question -> Prop) data client code c n :
  (forall c q fq,
      format_question (context_of data) code c q = inr fq -> P fq) ->
  Forall P (fst (generate_questions data client code c n)).
Proof.
  intros HP. unfold generate_questions.
  destruct (client _) as [| |decoded]; try constructor.
  destruct (iterate decoded) as [e|items]; try constructor.
  destruct (format_loop _ _ _ _ _) as [[e|out] c'] eqn:E; try constructor.
  eapply format_loop_Forall; eauto.
Qed.

(** The loop numbers what it returns from [c + 1] on, and leaves the
    counter advanced by the number of items. *)
Lemma format_loop_ids ctx code :
  forall items c acc out c',
    format_loop ctx code items c acc = (inr out, c') ->
    c' = c + List.length items
    /\ exists new,
         out = (acc ++ new)%list
         /\ map id new
            = map (fun k => code ++ Py.str (c + k)) (seq 1 (List.length items)).
Proof.
  induction items as [|q items IH]; intros c acc out c'.
  - cbn. intros [= <- <-]. split; [lia|]. exists []. now rewrite app_nil_r.
  - cbn [format_loop].
    destruct (format_question ctx code (c + 1) q) as [e|fq] eqn:E;
      [discriminate|].
    intros H. apply IH in H. destruct H as (-> & new & -> & Hids).
    cbn [List.length]. split; [lia|].
    exists (fq :: new). split; [now rewrite <- app_assoc|].
    cbn [map seq]. f_equal.
    + apply format_question_fields in E. now destruct E as [-> _].
    + rewrite Hids, <- (seq_shift (List.length items) 1), map_map.
      apply map_ext.
      intros k. do 2 f_equal. lia.
Qed.

(** An exception in the loop leaves the counter at the failing item. *)
Lemma format_loop_raises ctx code :
  forall items c acc e c',
    format_loop ctx code items c acc = (inl e, c') ->
    c < c' <= c + List.length items.
Proof.
  induction items as [|q items IH]; intros c acc e c'.
  - cbn. discriminate.
  - cbn [format_loop List.length].
    destruct (format_question ctx code (c + 1) q) as [e'|fq].
    + intros [= _ <-]. lia.
    + intros H. apply IH in H. lia.
Qed.

End SynthFacts.

Section SynthClaims.

Import Synth.

(** C6.  In personnel mode (the input is a bare company name) every
    returned question has category "Key Personnel" and source type
    "personnel_data", whatever the service answered. *)
Theorem personnel_mode_forces_category
        (name : string) (client : Client) (code : string) (c : nat) (n : Z) :
  Forall (fun q =>
            category (metadata q) = JStr "Key Personnel"
            /\ source_type (metadata q) = "personnel_data")
         (fst (generate_questions (OfCompany name) client code c n)).
Proof.
  apply generate_questions_Forall. intros c0 q fq.
  now apply format_question_personnel.
Qed.

(** The statement above is not empty: an answer whose items name another
    category, or none, comes back with the forced values. *)
Example forced_category_run :
  map (fun q => (id q, category (metadata q), source_type (metadata q)))
      (fst (generate_questions
              (OfCompany "Bank Muscat")
              (fun _ => Decoded (JArr [sample_item;
                                       JObj [("question", JNull);
                                             ("options", JNull);
                                             ("answer", JNull)]]))
              "BM" 1000 2))
  = [ ("BM1001", JStr "Key Personnel", "personnel_data");
      ("BM1002", JStr "Key Personnel", "personnel_data") ].
Proof. vm_compute. reflexivity. Qed.

(** C10.  In personnel mode every returned question has report year
    "2024", source chunk id "0", and as source file the company name with
    spaces replaced by underscores followed by "_Report_2024.pdf",
    whatever the service answered.  (No condition on underscores in the
    name is needed.) *)
Theorem personnel_mode_provenance
        (name : string) (client : Client) (code : string) (c : nat) (n : Z) :
  Forall (fun q =>
            md_report_year (metadata q) = "2024"
            /\ source_chunk_id (metadata q) = "0"
            /\ md_source_file (metadata q)
               = Py.replace_char " " "_" name ++ "_Report_2024.pdf")
         (fst (generate_questions (OfCompany name) client code c n)).
Proof.
  apply generate_questions_Forall. intros c0 q fq H.
  apply format_question_fields in H.
  destruct H as (_ & _ & -> & -> & ->). repeat split.
Qed.

(** When the request raises, the response is not JSON, or the decoded
    value is not iterable, the call returns nothing and the counter it
    was given. *)
Lemma generate_questions_failure_before_loop data client code c n :
  (let ctx := context_of data in
   match client (mkPrompt n (ctx_prompt_context ctx) (ctx_text ctx)) with
   | Raised | DecodeError _ => True
   | Decoded v => exists e, iterate v = inl e
   end) ->
  generate_questions data client code c n = ([], c).
Proof.
  unfold generate_questions. cbv zeta.
  destruct (client _) as [| |v]; try reflexivity.
  intros [e ->]. reflexivity.
Qed.

(** C9, where the code departs from it: a response that is valid JSON
    but a dictionary instead of an array of question objects gives no
    question, yet the counter comes back advanced. *)
Lemma malformed_response_advances_counter :
  generate_questions (OfChunk sample_chunk)
                     (fun _ => Decoded (JObj [("error", JStr "no data")]))
                     "TAB" 1000 5
  = ([], 1001).
Proof. vm_compute. reflexivity. Qed.

(** The same with an array whose second object lacks "answer": the
    first question is formatted, then dropped with the rest. *)
Example incomplete_object_advances_counter :
  generate_questions (OfChunk sample_chunk)
                     (fun _ => Decoded (JArr [sample_item;
                                              sample_item_without_answer]))
                     "TAB" 1000 5
  = ([], 1002).
Proof. vm_compute. reflexivity. Qed.

(** Every call either numbers what it returns consecutively from the
    counter it was given, or returns nothing and a counter that is not
    smaller. *)
Lemma generate_questions_counter data client code c n :
  let r := generate_questions data client code c n in
  (snd r = c + List.length (fst r)
   /\ map id (fst r)
      = map (fun k => code ++ Py.str (c + k)) (seq 1 (List.length (fst r))))
  \/ (fst r = [] /\ c <= snd r).
Proof.
  unfold generate_questions. cbv zeta.
  destruct (client _) as [| |v]; try (right; split; [reflexivity|cbn; lia]).
  destruct (iterate v) as [e|items];
    try (right; split; [reflexivity|cbn; lia]).
  destruct (format_loop _ _ _ _ _) as [[e|out] c'] eqn:E.
  - right. apply format_loop_raises in E. cbn. split; [reflexivity|lia].
  - left. apply format_loop_ids in E.
    destruct E as (-> & new & -> & Hids). cbn [fst snd app].
    assert (Hlen : List.length new = List.length items).
    { apply (f_equal (@List.length _)) in Hids.
      now rewrite !length_map, length_seq in Hids. }
    rewrite Hlen. split; [reflexivity|assumption].
Qed.

End SynthClaims.

(** ** Per-company driving loop *)

Section DriverFacts.

Import Synth Driver.

Variable extract : string -> option string.
Variable service : nat -> Client.

Lemma request_log_app t1 t2 :
  request_log (t1 ++ t2) = (request_log t1 ++ request_log t2)%list.
Proof. apply flat_map_app. Qed.

Lemma plan_nonpos needed chunks : (needed <= 0)%Z -> plan needed chunks = [].
Proof.
  intros H. destruct chunks as [|c rest]; [reflexivity|]. cbn.
  destruct (Z.leb_spec (Z.min 5 needed) 0); [reflexivity|lia].
Qed.

Lemma remaining_nonpos needed chunks :
  (needed <= 0)%Z -> remaining needed chunks = needed.
Proof.
  intros H. destruct chunks as [|c rest]; [reflexivity|]. cbn.
  destruct (Z.leb_spec (Z.min 5 needed) 0); [reflexivity|lia].
Qed.

Lemma plan_app l1 : forall needed l2,
  plan needed (l1 ++ l2)
  = (plan needed l1 ++ plan (remaining needed l1) l2)%list.
Proof.
  induction l1 as [|c l1 IH]; intros needed l2; [reflexivity|].
  cbn [app plan remaining]. cbv zeta.
  destruct (Z.leb_spec (Z.min 5 needed) 0) as [Hle|Hgt].
  - symmetry. apply plan_nonpos. lia.
  - cbn [app]. f_equal. apply IH.
Qed.

Lemma remaining_app l1 : forall needed l2,
  remaining needed (l1 ++ l2) = remaining (remaining needed l1) l2.
Proof.
  induction l1 as [|c l1 IH]; intros needed l2; [reflexivity|].
  cbn [app remaining]. cbv zeta.
  destruct (Z.leb_spec (Z.min 5 needed) 0) as [Hle|Hgt].
  - symmetry. apply remaining_nonpos. lia.
  - apply IH.
Qed.

(** The chunk loop keeps [questions_needed] in step with the number of
    questions collected. *)
Lemma chunk_loop_needed code chunks : forall st,
  let st' := chunk_loop service code chunks st in
  (questions_needed st' + count st' = questions_needed st + count st)%Z.
Proof.
  induction chunks as [|c rest IH]; intros st; [reflexivity|].
  cbn [chunk_loop]. cbv zeta.
  destruct (Z.leb_spec (Z.min 5 (questions_needed st)) 0); [reflexivity|].
  unfold call.
  destruct (generate_questions _ _ _ _ _) as [qs counter].
  etransitivity; [apply IH|]. unfold count. cbn [questions_needed all_questions].
  rewrite length_app. lia.
Qed.

Lemma chunk_loop_plan code chunks :
  exact_service service ->
  forall st,
    let st' := chunk_loop service code chunks st in
    log st' = (log st ++ plan (questions_needed st) chunks)%list
    /\ questions_needed st' = remaining (questions_needed st) chunks.
Proof.
  intros Hexact. induction chunks as [|c rest IH]; intros st.
  - cbn. unfold log. now rewrite app_nil_r.
  - cbn [chunk_loop plan remaining]. cbv zeta.
    destruct (Z.leb_spec (Z.min 5 (questions_needed st)) 0) as [Hle|Hgt].
    + unfold log. now rewrite app_nil_r.
    + unfold call.
      pose proof (Hexact (requests (world st)) c code (id_counter st)
                         (Z.min 5 (questions_needed st)) ltac:(lia)) as Hn.
      destruct (generate_questions _ _ _ _ _) as [qs counter].
      cbn [fst] in Hn.
      match goal with
      | |- context [chunk_loop service code rest ?s] =>
          destruct (IH s) as [Hlog Hneed]
      end.
      cbv zeta in Hlog, Hneed. rewrite Hlog, Hneed.
      cbn [questions_needed]. rewrite Hn, Z2Nat.id by lia.
      unfold log at 1. cbn [world trace].
      rewrite request_log_app. cbn [request_log flat_map app].
      rewrite <- app_assoc. split; reflexivity.
Qed.

Lemma pdf_loop_plan name code quota pdf_infos :
  exact_service service ->
  forall st,
    let st' := pdf_loop extract service name code quota pdf_infos st in
    let cs := chunks_within_cap extract name pdf_infos in
    log st' = (log st ++ plan (quota - count st) cs)%list
    /\ (quota - count st')%Z = remaining (quota - count st) cs.
Proof.
  intros Hexact. induction pdf_infos as [|r rest IH]; intros st.
  - cbn. unfold log. now rewrite app_nil_r.
  - cbn [pdf_loop chunks_within_cap flat_map]. cbv zeta.
    fold (chunks_within_cap extract name rest).
    unfold usable_chunks.
    set (st1 := mkLocals (all_questions st) (id_counter st)
                         (questions_needed st)
                         (emit (Extract (ref_path r)) (world st))).
    assert (Hlog1 : log st1 = log st).
    { unfold log, st1. cbn [world emit trace].
      rewrite request_log_app. cbn. now rewrite app_nil_r. }
    assert (Hcount1 : count st1 = count st) by reflexivity.
    destruct (extract (ref_path r)) as [[|ch t]|].
    + cbn [app]. rewrite <- Hlog1, <- Hcount1. apply IH.
    + set (txt := String ch t).
      set (chunks := Chunker.create_chunks_from_text txt _).
      set (use := firstn (Nat.min 5 (List.length chunks)) chunks).
      fold (count st1).
      destruct (Z.leb_spec (quota - count st1) 0) as [Hle|Hgt].
      * rewrite plan_nonpos, remaining_nonpos by lia.
        rewrite app_nil_r. split; [assumption|]. now rewrite Hcount1.
      * set (st2 := mkLocals (all_questions st1) (id_counter st1)
                             (quota - count st1) (world st1)).
        destruct (chunk_loop_plan code use Hexact st2) as [Hlog2 Hneed2].
        pose proof (chunk_loop_needed code use st2) as Hinv.
        cbv zeta in Hlog2, Hneed2, Hinv.
        set (st3 := chunk_loop service code use st2) in *.
        destruct (IH st3) as [Hlog3 Hrem3]. cbv zeta in Hlog3, Hrem3.
        assert (Hq : (quota - count st3)%Z = questions_needed st3).
        { change (questions_needed st2) with (quota - count st1)%Z in Hinv.
          change (count st2) with (count st1) in Hinv. lia. }
        rewrite Hlog3, Hrem3, Hq, Hneed2, Hlog2.
        change (questions_needed st2) with (quota - count st1)%Z.
        change (log st2) with (log st1).
        rewrite plan_app, remaining_app, <- app_assoc, Hlog1, Hcount1.
        split; reflexivity.
    + cbn [app]. rewrite <- Hlog1, <- Hcount1. apply IH.
Qed.

End DriverFacts.

Section DriverClaims.

Import Synth Driver.

Variable extract : string -> option string.
Variable service : nat -> Client.

Lemma generation_plan name pdf_infos quota w :
  exact_service service ->
  let st := generation extract service name pdf_infos quota w in
  let cs := chunks_within_cap extract name pdf_infos in
  log st
  = (request_log (trace w) ++ plan quota cs
     ++ (if (0 <? remaining quota cs)%Z
         then [(OfCompany name, remaining quota cs)] else []))%list.
Proof.
  intros Hexact. cbv zeta. unfold generation, personnel_fallback.
  set (code := Code.generate_company_code name).
  set (st0 := mkLocals [] 1000 0 w).
  destruct (pdf_loop_plan extract service name code quota pdf_infos Hexact st0)
    as [Hlog Hrem].
  cbv zeta in Hlog, Hrem.
  set (st1 := pdf_loop extract service name code quota pdf_infos st0) in *.
  change (count st0) with 0%Z in *. rewrite Z.sub_0_r in *.
  change (log st0) with (request_log (trace w)) in Hlog.
  fold (count st1). rewrite <- Hrem.
  destruct (Z.ltb_spec (count st1) quota) as [Hlt|Hge].
  - replace (0 <? quota - count st1)%Z with true
      by (symmetry; apply Z.ltb_lt; lia).
    unfold call. destruct (generate_questions _ _ _ _ _) as [qs counter].
    unfold log. cbn [world trace]. rewrite request_log_app.
    fold (log st1). rewrite Hlog, <- app_assoc. reflexivity.
  - replace (0 <? quota - count st1)%Z with false
      by (symmetry; apply Z.ltb_ge; lia).
    now rewrite Hlog, app_nil_r.
Qed.

Lemma process_company_documents_log name first rest out quota w :
  exists qs w',
    process_company_documents extract service name (first :: rest) out quota w
    = Some (qs, w')
    /\ qs = all_questions
              (generation extract service name (first :: rest) quota
                 (emit (Makedirs (Py.path_join out (ref_country first)))
                       (emit (Makedirs out) w)))
    /\ request_log (trace w')
       = log (generation extract service name (first :: rest) quota
                (emit (Makedirs (Py.path_join out (ref_country first)))
                      (emit (Makedirs out) w))).
Proof.
  eexists. eexists. split; [reflexivity|]. split; [reflexivity|].
  cbn [emit trace]. rewrite request_log_app. cbn. now rewrite app_nil_r.
Qed.

(** C7.  With quota 12, at least three chunks within the five-chunk cap
    and every chunk-mode call returning exactly what it is asked for, the
    run of one company issues exactly three requests, all in chunk mode,
    for 5, 5 and 2 questions, and no personnel-mode request. *)
Theorem quota_12_three_chunk_calls
        (name : string) (pdf_infos : list PdfRef) (out : string) (w : World)
        (c1 c2 c3 : Chunk) (more : list Chunk) :
  exact_service service ->
  chunks_within_cap extract name pdf_infos = c1 :: c2 :: c3 :: more ->
  exists qs w',
    process_company_documents extract service name pdf_infos out 12 w
    = Some (qs, w')
    /\ request_log (trace w')
       = (request_log (trace w)
          ++ [(OfChunk c1, 5%Z); (OfChunk c2, 5%Z); (OfChunk c3, 2%Z)])%list.
Proof.
  intros Hexact Hcs.
  destruct pdf_infos as [|first rest]; [discriminate Hcs|].
  destruct (process_company_documents_log name first rest out 12 w)
    as (qs & w' & Hrun & _ & Hlog).
  exists qs, w'. split; [assumption|].
  rewrite Hlog, generation_plan by assumption. cbv zeta. rewrite Hcs.
  cbn [emit trace]. rewrite !request_log_app. cbn [request_log flat_map app].
  rewrite !app_nil_r.
  assert (Hp : plan 12 (c1 :: c2 :: c3 :: more)
               = [(OfChunk c1, 5%Z); (OfChunk c2, 5%Z); (OfChunk c3, 2%Z)]).
  { cbn. now rewrite plan_nonpos by lia. }
  assert (Hr : remaining 12 (c1 :: c2 :: c3 :: more) = 0%Z).
  { cbn. now rewrite remaining_nonpos by lia. }
  rewrite Hp, Hr. cbn. reflexivity.
Qed.

Lemma pdf_loop_without_chunks name code quota pdf_infos :
  chunks_within_cap extract name pdf_infos = [] ->
  forall st,
    let st' := pdf_loop extract service name code quota pdf_infos st in
    all_questions st' = all_questions st
    /\ id_counter st' = id_counter st
    /\ requests (world st') = requests (world st)
    /\ log st' = log st.
Proof.
  induction pdf_infos as [|r rest IH]; intros Hcs st; [now cbn|].
  cbn [chunks_within_cap flat_map] in Hcs. apply app_eq_nil in Hcs.
  destruct Hcs as [Hr Hrest]. specialize (IH Hrest).
  cbn [pdf_loop]. cbv zeta. unfold usable_chunks in Hr.
  set (st1 := mkLocals (all_questions st) (id_counter st)
                       (questions_needed st)
                       (emit (Extract (ref_path r)) (world st))).
  assert (Hlog1 : log st1 = log st).
  { unfold log, st1. cbn [world emit trace].
    rewrite request_log_app. cbn. now rewrite app_nil_r. }
  destruct (extract (ref_path r)) as [[|ch t]|].
  - destruct (IH st1) as (-> & -> & -> & ->). now rewrite Hlog1.
  - cbv zeta in Hr. rewrite Hr.
    destruct (_ <=? 0)%Z; [repeat split; exact Hlog1|].
    cbn [chunk_loop].
    match goal with
    | |- context [pdf_loop _ _ _ _ _ rest ?s] =>
        destruct (IH s) as (-> & -> & -> & ->)
    end.
    now rewrite <- Hlog1.
  - destruct (IH st1) as (-> & -> & -> & ->). now rewrite Hlog1.
Qed.

(** C8.  With quota 20 and no chunk available (in particular when text
    extraction fails on every document), the run of one company issues
    exactly one request: a personnel-mode one, for 20 questions. *)
Theorem no_chunks_one_personnel_call
        (name : string) (pdf_infos : list PdfRef) (out : string) (w : World) :
  pdf_infos <> [] ->
  chunks_within_cap extract name pdf_infos = [] ->
  exists qs w',
    process_company_documents extract service name pdf_infos out 20 w
    = Some (qs, w')
    /\ request_log (trace w')
       = (request_log (trace w) ++ [(OfCompany name, 20%Z)])%list.
Proof.
  intros Hne Hcs. destruct pdf_infos as [|first rest]; [contradiction|].
  destruct (process_company_documents_log name first rest out 20 w)
    as (qs & w' & Hrun & _ & Hlog).
  exists qs, w'. split; [assumption|]. rewrite Hlog.
  unfold generation, personnel_fallback.
  match goal with
  | |- context [pdf_loop _ _ ?n ?c ?q ?l ?s] =>
      destruct (pdf_loop_without_chunks n c q l Hcs s) as (Ha & _ & _ & Hl);
      cbv zeta in Ha, Hl;
      set (st1 := pdf_loop extract service n c q l s) in *
  end.
  rewrite Ha. cbn [all_questions List.length Z.of_nat Z.ltb Z.compare Z.sub].
  unfold call. destruct (generate_questions _ _ _ _ _) as [pq counter].
  unfold log in *. cbn [world trace]. rewrite request_log_app, Hl.
  cbn [emit trace world]. rewrite !request_log_app. cbn.
  now rewrite !app_nil_r.
Qed.

End DriverClaims.

Lemma extraction_failure_gives_no_chunks extract name pdf_infos :
  (forall r, In r pdf_infos -> extract (ref_path r) = None) ->
  chunks_within_cap extract name pdf_infos = [].
Proof.
  induction pdf_infos as [|r rest IH]; intros H; [reflexivity|].
  cbn [chunks_within_cap flat_map]. unfold usable_chunks at 1.
  rewrite (H r (or_introl eq_refl)). apply IH.
  intros r' Hr'. apply H. now right.
Qed.

Section DriverWitnesses.

Import Synth Driver.

Lemma format_question_sample_item ctx code c :
  exists fq, format_question ctx code c sample_item = inr fq.
Proof.
  unfold format_question, sample_item. cbn.
  destruct (negb (is_chunk ctx)); cbn; eexists; reflexivity.
Qed.

Lemma format_loop_sample_items ctx code m :
  forall c acc,
    exists out,
      format_loop ctx code (repeat sample_item m) c acc = (inr out, c + m)
      /\ List.length out = List.length acc + m.
Proof.
  induction m as [|m IH]; intros c acc.
  - exists acc. cbn. split; [f_equal|]; lia.
  - cbn [repeat format_loop].
    destruct (format_question_sample_item ctx code (c + 1)) as [fq ->].
    destruct (IH (c + 1) (acc ++ [fq])%list) as (out & -> & Hlen).
    exists out. split; [f_equal; lia|].
    rewrite Hlen, length_app. cbn. lia.
Qed.

Lemma obliging_service_exact : exact_service obliging_service.
Proof.
  intros k c code counter n Hn.
  unfold generate_questions, obliging_service. cbn [num_questions iterate].
  destruct (format_loop_sample_items (context_of (OfChunk c)) code
                                     (Z.to_nat n) counter [])
    as (out & -> & Hlen).
  cbn [fst]. now rewrite Hlen.
Qed.

Lemma quota_12_three_chunk_calls_witness :
  exact_service obliging_service
  /\ List.length (chunks_within_cap long_report "Tabreed" [sample_ref]) = 3
  /\ exists qs w',
       process_company_documents long_report obliging_service "Tabreed"
                                 [sample_ref] "output" 12 initial_world
       = Some (qs, w')
       /\ map snd (request_log (trace w')) = [5%Z; 5%Z; 2%Z].
Proof.
  split; [exact obliging_service_exact|]. split; [vm_compute; reflexivity|].
  destruct (quota_12_three_chunk_calls
              long_report obliging_service "Tabreed" [sample_ref] "output"
              initial_world
              (nth 0 (chunks_within_cap long_report "Tabreed" [sample_ref])
                   sample_chunk)
              (nth 1 (chunks_within_cap long_report "Tabreed" [sample_ref])
                   sample_chunk)
              (nth 2 (chunks_within_cap long_report "Tabreed" [sample_ref])
                   sample_chunk)
              []
              obliging_service_exact)
    as (qs & w' & Hrun & Hlog).
  - vm_compute. reflexivity.
  - exists qs, w'. split; [exact Hrun|]. rewrite Hlog. reflexivity.
Defined.

Lemma no_chunks_one_personnel_call_witness :
  [sample_ref] <> []
  /\ exists qs w',
       process_company_documents unreadable obliging_service "Tabreed"
                                 [sample_ref] "output" 20 initial_world
       = Some (qs, w')
       /\ request_log (trace w') = [(OfCompany "Tabreed", 20%Z)].
Proof.
  split; [discriminate|].
  apply (no_chunks_one_personnel_call
           unreadable obliging_service "Tabreed" [sample_ref] "output"
           initial_world).
  - discriminate.
  - reflexivity.
Defined.

(** C1, where the code departs from it.  The only chunk call of this run
    gets an array whose second object lacks "answer": both items are
    numbered, then dropped.  The personnel call that follows returns the
    run's single question, numbered 1003 instead of 1001. *)
Lemma dropped_batch_leaves_gap_in_ids :
  option_map
    (fun r => map id (fst r))
    (process_company_documents short_report
                               faulty_service "Tabreed" [sample_ref]
                               "output" 2 initial_world)
  = Some ["TAB1003"].
Proof. vm_compute. reflexivity. Qed.

End DriverWitnesses.
(** ** Identifiers across the calls of one company *)

Section Identifiers.

Import Synth Driver.

Variable extract : string -> option string.
Variable service : nat -> Client.

(** A property of the collected questions and the counter that every
    call preserves holds after the whole run of a company. *)
Section Invariant.

Variable code : string.
Variable I : list Question -> nat -> Prop.
Hypothesis I_call :
  forall qs c k data n,
    I qs c ->
    let r := generate_questions data (service k) code c n in
    I (qs ++ fst r)%list (snd r).

Lemma chunk_loop_invariant chunks : forall st,
  I (all_questions st) (id_counter st) ->
  let st' := chunk_loop service code chunks st in
  I (all_questions st') (id_counter st').
Proof.
  induction chunks as [|c rest IH]; intros st H; [exact H|].
  cbn [chunk_loop]. cbv zeta.
  destruct (_ <=? 0)%Z; [exact H|]. unfold call.
  pose proof (I_call _ _ (requests (world st)) (OfChunk c)
                     (Z.min 5 (questions_needed st)) H) as Hr.
  cbv zeta in Hr.
  destruct (generate_questions _ _ _ _ _) as [qs counter].
  apply IH. exact Hr.
Qed.

Lemma pdf_loop_invariant name quota pdf_infos : forall st,
  I (all_questions st) (id_counter st) ->
  let st' := pdf_loop extract service name code quota pdf_infos st in
  I (all_questions st') (id_counter st').
Proof.
  induction pdf_infos as [|r rest IH]; intros st H; [exact H|].
  cbn [pdf_loop]. cbv zeta.
  destruct (extract (ref_path r)) as [[|ch t]|].
  - apply IH. exact H.
  - destruct (_ <=? 0)%Z; [exact H|].
    apply IH. apply chunk_loop_invariant. exact H.
  - apply IH. exact H.
Qed.

Lemma personnel_fallback_invariant name quota st :
  I (all_questions st) (id_counter st) ->
  let st' := personnel_fallback service name code quota st in
  I (all_questions st') (id_counter st').
Proof.
  intros H. cbv zeta. unfold personnel_fallback.
  destruct (_ <? quota)%Z; [|exact H]. unfold call.
  pose proof (I_call _ _ (requests (world st)) (OfCompany name)
                     (quota - Z.of_nat (List.length (all_questions st)))%Z H)
    as Hr.
  cbv zeta in Hr.
  destruct (generate_questions _ _ _ _ _) as [qs counter]. exact Hr.
Qed.

End Invariant.

Lemma generation_invariant (I : list Question -> nat -> Prop)
      name pdf_infos quota w :
  (forall qs c k data n,
      I qs c ->
      let r := generate_questions data (service k)
                                  (Code.generate_company_code name) c n in
      I (qs ++ fst r)%list (snd r)) ->
  I [] 1000 ->
  let st := generation extract service name pdf_infos quota w in
  I (all_questions st) (id_counter st).
Proof.
  intros Hcall H0. cbv zeta. unfold generation.
  apply personnel_fallback_invariant; [exact Hcall|].
  apply pdf_loop_invariant; [exact Hcall|]. exact H0.
Qed.

Lemma map_seq_ext {A} (f g : nat -> A) n : forall a b,
  (forall j, j < n -> f (a + j) = g (b + j)) ->
  map f (seq a n) = map g (seq b n).
Proof.
  induction n as [|n IH]; intros a b H; [reflexivity|].
  cbn [seq map]. f_equal.
  - specialize (H 0 ltac:(lia)). now rewrite !Nat.add_0_r in H.
  - apply IH. intros j Hj. specialize (H (S j) ltac:(lia)).
    now rewrite !Nat.add_succ_r in H.
Qed.

Lemma sorted_app (l1 l2 : list nat) :
  StronglySorted lt l1 -> StronglySorted lt l2 ->
  (forall a b, In a l1 -> In b l2 -> a < b) ->
  StronglySorted lt (l1 ++ l2).
Proof.
  induction 1 as [|a l1 Hs IH Ha]; intros H2 Hlt; [exact H2|].
  cbn [app]. constructor.
  - apply IH; [exact H2|]. intros x y Hx Hy. apply Hlt; [now right|exact Hy].
  - apply Forall_app. split; [exact Ha|].
    apply Forall_forall. intros y Hy. apply Hlt; [now left|exact Hy].
Qed.

Lemma sorted_offsets c n : forall s,
  StronglySorted lt (map (fun k => c + k) (seq s n)).
Proof.
  induction n as [|n IH]; intros s; [constructor|].
  cbn [seq map]. constructor; [apply IH|].
  apply Forall_forall. intros y Hy. apply in_map_iff in Hy.
  destruct Hy as (k & <- & Hk). apply in_seq in Hk. lia.
Qed.

Lemma sorted_NoDup (l : list nat) : StronglySorted lt l -> NoDup l.
Proof.
  induction 1 as [|a l Hs IH Ha]; constructor; [|exact IH].
  intros Hin. rewrite Forall_forall in Ha. specialize (Ha a Hin). lia.
Qed.

Lemma str_injective a b : Py.str a = Py.str b -> a = b.
Proof.
  unfold Py.str. intros H.
  apply (f_equal NilEmpty.uint_of_string) in H.
  rewrite !NilEmpty.usu in H. injection H as H.
  apply (f_equal Nat.of_uint) in H. now rewrite !Unsigned.of_to in H.
Qed.

Lemma append_cancel_l (p a b : string) : p ++ a = p ++ b -> a = b.
Proof. induction p as [|ch p IH]; cbn; [auto|]. intros [= H]. auto. Qed.

Lemma numbered_NoDup code lo hi qs :
  numbered code lo hi qs -> NoDup (map id qs).
Proof.
  intros (ks & -> & Hs & _). apply Injective_map_NoDup.
  - intros a b H. apply str_injective, (append_cancel_l code), H.
  - apply sorted_NoDup, Hs.
Qed.

Lemma numbered_call code qs c k data n :
  numbered code 1000 c qs /\ 1000 <= c ->
  let r := generate_questions data (service k) code c n in
  numbered code 1000 (snd r) (qs ++ fst r) /\ 1000 <= snd r.
Proof.
  intros [(ks & Hids & Hs & Hb) Hc]. cbv zeta.
  destruct (generate_questions_counter data (service k) code c n)
    as [[Hsnd Hnew]|[Hnil Hle]]; cbv zeta in *.
  - split; [|lia].
    exists (ks ++ map (fun j => c + j)
                      (seq 1 (List.length (fst (generate_questions
                                                  data (service k) code c n)))))%list.
    split; [|split].
    + rewrite !map_app, Hids, Hnew, map_map. reflexivity.
    + apply sorted_app; [exact Hs|apply sorted_offsets|].
      intros a b Ha Hb'. rewrite Forall_forall in Hb. specialize (Hb a Ha).
      apply in_map_iff in Hb'. destruct Hb' as (j & <- & Hj).
      apply in_seq in Hj. lia.
    + apply Forall_app. split.
      * eapply Forall_impl; [|exact Hb]. cbn. intros a Ha. lia.
      * apply Forall_forall. intros b Hb'. apply in_map_iff in Hb'.
        destruct Hb' as (j & <- & Hj). apply in_seq in Hj. lia.
  - rewrite Hnil, app_nil_r. split; [|lia].
    exists ks. split; [exact Hids|]. split; [exact Hs|].
    eapply Forall_impl; [|exact Hb]. cbn. intros a Ha. lia.
Qed.

(** In every run of a company, whatever the service answers, the
    identifiers are the company code followed by strictly increasing
    numbers above 1000. *)
Theorem ids_strictly_increasing name pdf_infos quota w :
  let st := generation extract service name pdf_infos quota w in
  numbered (Code.generate_company_code name) 1000 (id_counter st)
           (all_questions st).
Proof.
  cbv zeta.
  apply (generation_invariant
           (fun qs c =>
              numbered (Code.generate_company_code name) 1000 c qs
              /\ 1000 <= c)).
  - intros qs c k data n H. now apply numbered_call.
  - split; [|lia]. exists []. repeat split; constructor.
Qed.

(** Hence they are pairwise distinct. *)
Corollary ids_pairwise_distinct name pdf_infos quota w :
  NoDup (map id (all_questions
                   (generation extract service name pdf_infos quota w))).
Proof. eapply numbered_NoDup, ids_strictly_increasing. Qed.

(** When no call drops a batch, the M questions of a company carry the
    numbers 1001 .. 1000+M, in order. *)
Theorem ids_consecutive name pdf_infos quota w :
  no_dropped_batch service ->
  let st := generation extract service name pdf_infos quota w in
  map id (all_questions st)
  = map (fun k => Code.generate_company_code name ++ Py.str (1000 + k))
        (seq 1 (List.length (all_questions st))).
Proof.
  intros Hclean. cbv zeta.
  set (code := Code.generate_company_code name).
  pose (I := fun (qs : list Question) (c : nat) =>
               c = 1000 + List.length qs
               /\ map id qs
                  = map (fun k => code ++ Py.str (1000 + k))
                        (seq 1 (List.length qs))).
  enough (H : I (all_questions
                   (generation extract service name pdf_infos quota w))
                (id_counter
                   (generation extract service name pdf_infos quota w)))
    by apply H.
  apply (generation_invariant I); [|split; reflexivity].
  fold code. intros qs c k data n [Hc Hids]. unfold I. cbv zeta.
  pose proof (Hclean k data code c n) as Hsnd. cbv zeta in Hsnd.
  destruct (generate_questions_counter data (service k) code c n)
    as [[_ Hnew]|[Hnil _]]; cbv zeta in *.
  - rewrite Hsnd, length_app. split; [lia|].
    rewrite map_app, Hids, Hnew, seq_app, map_app. f_equal.
    apply map_seq_ext. intros j _. do 2 f_equal. lia.
  - rewrite Hsnd, Hnil, app_nil_r. cbn [List.length]. split; [lia|exact Hids].
Qed.

End Identifiers.

(** ** Corpus collector *)

Section CollectorFacts.

Import Collector.

Lemma add_pdf_holds_new company_pdfs name r :
  holds (add_pdf company_pdfs name r) name r.
Proof.
  induction company_pdfs as [|[k refs] rest IH]; cbn [add_pdf].
  - exists [r]. split; left; reflexivity.
  - destruct (String.eqb_spec k name) as [->|Hne].
    + exists (refs ++ [r])%list. split; [now left|].
      apply in_or_app. right. now left.
    + destruct IH as (refs' & Hin & Hr). exists refs'. split; [now right|auto].
Qed.

Lemma add_pdf_holds_old company_pdfs name r name' r' :
  holds company_pdfs name r -> holds (add_pdf company_pdfs name' r') name r.
Proof.
  intros (refs & Hin & Hr).
  induction company_pdfs as [|[k l] rest IH]; [contradiction|].
  cbn [add_pdf]. destruct Hin as [[= -> ->]|Hin].
  - destruct (String.eqb_spec name name') as [_|_].
    + exists (refs ++ [r'])%list. split; [now left|].
      apply in_or_app. now left.
    + exists refs. split; [now left|assumption].
  - destruct (String.eqb_spec k name') as [_|_].
    + exists refs. split; [now right|assumption].
    + destruct (IH Hin) as (refs' & Hin' & Hr').
      exists refs'. split; [now right|assumption].
Qed.

Lemma add_pdf_nonempty company_pdfs name r :
  Forall (fun kv => snd kv <> []) company_pdfs ->
  Forall (fun kv => snd kv <> []) (add_pdf company_pdfs name r).
Proof.
  induction 1 as [|[k l] rest Hk Hrest IH]; cbn [add_pdf].
  - constructor; [discriminate|constructor].
  - destruct (String.eqb k name); constructor; auto.
    cbn. destruct l; discriminate.
Qed.

Lemma collect_files_holds_old dir country files : forall acc name r,
  holds acc name r -> holds (collect_files dir country acc files) name r.
Proof.
  unfold collect_files.
  induction files as [|f files IH]; intros acc name r H; [exact H|].
  cbn [fold_left]. apply IH. now apply add_pdf_holds_old.
Qed.

Lemma collect_files_holds_new dir country files : forall acc f,
  In f files ->
  holds (collect_files dir country acc files) (company_name_of f country)
        (mkPdfRef (Py.path_join (Py.path_join dir country) f) country f).
Proof.
  induction files as [|f0 files IH]; intros acc f Hin; [contradiction|].
  unfold collect_files. cbn [fold_left].
  destruct Hin as [->|Hin].
  - apply (collect_files_holds_old dir country files). apply add_pdf_holds_new.
  - apply IH, Hin.
Qed.

Lemma collect_files_nonempty dir country files : forall acc,
  Forall (fun kv => snd kv <> []) acc ->
  Forall (fun kv => snd kv <> []) (collect_files dir country acc files).
Proof.
  unfold collect_files.
  induction files as [|f files IH]; intros acc H; [exact H|].
  cbn [fold_left]. apply IH. now apply add_pdf_nonempty.
Qed.

Lemma collect_dirs_holds dir dirs : forall acc country files f,
  In (country, files) dirs ->
  In f files ->
  holds (fold_left (fun acc d => collect_files dir (fst d) acc (snd d))
                   dirs acc)
        (company_name_of f country)
        (mkPdfRef (Py.path_join (Py.path_join dir country) f) country f).
Proof.
  induction dirs as [|d dirs IH]; intros acc country files f Hd Hf;
    [contradiction|].
  cbn [fold_left]. destruct Hd as [->|Hd].
  - cbn [fst snd].
    assert (Hold : forall acc name r,
               holds acc name r ->
               holds (fold_left
                        (fun acc d => collect_files dir (fst d) acc (snd d))
                        dirs acc) name r).
    { clear. induction dirs as [|d dirs IH]; intros acc name r H; [exact H|].
      cbn [fold_left]. apply IH. now apply collect_files_holds_old. }
    apply Hold. now apply collect_files_holds_new.
  - eapply IH; eauto.
Qed.

(** A file of a visible country directory is grouped under the name
    inferred from its file name. *)
Lemma collected_under_inferred_name dir l country files f :
  dir_exists l = true ->
  In (country, files) (subdirs l) ->
  hidden country = false ->
  In f files ->
  holds (collect_gcc_company_pdfs dir l) (company_name_of f country)
        (mkPdfRef (Py.path_join (Py.path_join dir country) f) country f).
Proof.
  intros He Hd Hh Hf. unfold collect_gcc_company_pdfs. rewrite He. cbn [negb].
  eapply collect_dirs_holds; [|exact Hf].
  apply filter_In. split; [exact Hd|]. cbn [fst]. now rewrite Hh.
Qed.

(** Every company of the collection has at least one PDF. *)
Lemma collected_groups_nonempty dir l :
  Forall (fun kv => snd kv <> []) (collect_gcc_company_pdfs dir l).
Proof.
  unfold collect_gcc_company_pdfs. destruct (negb (dir_exists l)); [constructor|].
  generalize (filter (fun d => negb (hidden (fst d))) (subdirs l)).
  assert (H : Forall (fun kv : string * list PdfRef => snd kv <> []) [])
    by constructor.
  revert H. generalize (@nil (string * list PdfRef)).
  intros acc H dirs. revert acc H.
  induction dirs as [|d dirs IH]; intros acc H; [exact H|].
  cbn [fold_left]. apply IH. now apply collect_files_nonempty.
Qed.

(** C4, amended.  In any input directory, a file "FAB_Report_2023.pdf" of
    the (visible) country directory "UAE" is grouped under "First Abu
    Dhabi Bank", and a file "randomfile.pdf" of any visible country
    directory is grouped under "Randomfile.Pdf": the name keeps the
    extension, title-cased. *)
Theorem company_name_inference dir l files :
  dir_exists l = true ->
  In ("UAE", files) (subdirs l) ->
  (In "FAB_Report_2023.pdf" files ->
   holds (collect_gcc_company_pdfs dir l) "First Abu Dhabi Bank"
         (mkPdfRef (Py.path_join (Py.path_join dir "UAE") "FAB_Report_2023.pdf")
                   "UAE" "FAB_Report_2023.pdf"))
  /\ (In "randomfile.pdf" files ->
      holds (collect_gcc_company_pdfs dir l) "Randomfile.Pdf"
            (mkPdfRef (Py.path_join (Py.path_join dir "UAE") "randomfile.pdf")
                      "UAE" "randomfile.pdf")).
Proof.
  intros He Hd. split; intros Hf.
  - apply (collected_under_inferred_name dir l "UAE" files
                                         "FAB_Report_2023.pdf"); auto.
  - apply (collected_under_inferred_name dir l "UAE" files
                                         "randomfile.pdf"); auto.
Qed.

Lemma company_name_inference_witness :
  collect_gcc_company_pdfs "files" sample_listing
  = [ ("First Abu Dhabi Bank",
       [mkPdfRef "files/UAE/FAB_Report_2023.pdf" "UAE" "FAB_Report_2023.pdf"]);
      ("Randomfile.Pdf",
       [mkPdfRef "files/UAE/randomfile.pdf" "UAE" "randomfile.pdf"]) ]
  /\ holds (collect_gcc_company_pdfs "files" sample_listing) "Randomfile.Pdf"
           (mkPdfRef "files/UAE/randomfile.pdf" "UAE" "randomfile.pdf").
Proof.
  split; [vm_compute; reflexivity|].
  apply (company_name_inference
           "files" sample_listing ["FAB_Report_2023.pdf"; "randomfile.pdf"]).
  - reflexivity.
  - left. reflexivity.
  - right. left. reflexivity.
Defined.

(** C4, as stated, fails in its second half: no group is named
    "Randomfile". *)
Lemma randomfile_not_grouped_under_Randomfile :
  company_name_of "randomfile.pdf" "UAE" <> "Randomfile"
  /\ ~ In "Randomfile"
         (map fst (collect_gcc_company_pdfs "files" sample_listing)).
Proof.
  split.
  - vm_compute. discriminate.
  - vm_compute. intros [H|[H|[]]]; discriminate H.
Qed.

End CollectorFacts.

(** ** The whole run *)

Section MainFacts.

Import Synth Driver.

Variable extract : string -> option string.
Variable service : nat -> Client.

Lemma extends_refl w : extends w w.
Proof. exists []. now rewrite app_nil_r. Qed.

Lemma extends_trans w1 w2 w3 : extends w1 w2 -> extends w2 w3 -> extends w1 w3.
Proof.
  intros [t1 H1] [t2 H2]. exists (t1 ++ t2)%list.
  now rewrite H2, H1, app_assoc.
Qed.

Lemma extends_emit e w : extends w (emit e w).
Proof. now exists [e]. Qed.


Lemma chunk_loop_extends code chunks : forall st,
  extends (world st) (world (chunk_loop service code chunks st)).
Proof.
  induction chunks as [|c rest IH]; intros st; [apply extends_refl|].
  cbn [chunk_loop]. cbv zeta.
  destruct (_ <=? 0)%Z; [apply extends_refl|].
  unfold call. destruct (generate_questions _ _ _ _ _) as [qs counter].
  eapply extends_trans; [|apply IH]. cbn [world]. now eexists.
Qed.

Lemma pdf_loop_extends name code quota pdf_infos : forall st,
  extends (world st)
          (world (pdf_loop extract service name code quota pdf_infos st)).
Proof.
  induction pdf_infos as [|r rest IH]; intros st; [apply extends_refl|].
  cbn [pdf_loop]. cbv zeta.
  destruct (extract (ref_path r)) as [[|ch t]|].
  - eapply extends_trans; [|apply IH]. apply extends_emit.
  - destruct (_ <=? 0)%Z; [apply extends_emit|].
    eapply extends_trans; [|apply IH].
    eapply extends_trans; [|apply chunk_loop_extends]. apply extends_emit.
  - eapply extends_trans; [|apply IH]. apply extends_emit.
Qed.

Lemma generation_extends name pdf_infos quota w :
  extends w (world (generation extract service name pdf_infos quota w)).
Proof.
  unfold generation, personnel_fallback.
  match goal with
  | |- context [pdf_loop _ _ ?n ?c ?q ?l ?s] =>
      pose proof (pdf_loop_extends n c q l s) as H;
      set (st1 := pdf_loop extract service n c q l s) in *
  end.
  cbn [world] in H.
  destruct (_ <? quota)%Z; [|exact H].
  unfold call. destruct (generate_questions _ _ _ _ _) as [qs counter].
  eapply extends_trans; [exact H|]. cbn [world]. now eexists.
Qed.

(** One company: where its questions go. *)
Lemma process_company_documents_writes name first rest out quota w :
  exists qs w',
    process_company_documents extract service name (first :: rest) out quota w
    = Some (qs, w')
    /\ extends w w'
    /\ In (WriteJsonl
             (Py.path_join (Py.path_join out (ref_country first))
                           (Py.replace_char " " "_" name ++ "_questions.jsonl"))
             qs)
          (trace w').
Proof.
  eexists. eexists. split; [reflexivity|]. split.
  - eapply extends_trans; [|apply extends_emit].
    eapply extends_trans; [|apply generation_extends].
    eapply extends_trans; apply extends_emit.
  - cbn [emit trace]. apply in_or_app. right. now left.
Qed.





End MainFacts.

Section MainRuns.

Import Synth Driver.



(** A run without a key, and a run that finds no PDF, write nothing. *)
Example run_without_key_writes_nothing :
  main unreadable obliging_service
       (mkArgs "files" "output" None 2) None sample_listing
  = (NoApiKey, initial_world).
Proof. reflexivity. Qed.

Example run_without_pdfs_writes_nothing :
  main unreadable obliging_service sample_args None
       (Collector.mkListing true [("UAE", [])])
  = (NoPdfs, initial_world).
Proof. reflexivity. Qed.

(** A category that is not a string (here JSON null, in chunk mode) stops
    the run in the summary step: the merged dataset is on disk, the
    summary is not. *)
Example run_with_null_category_has_no_summary :
  let run :=
    main short_report
         (fun _ _ => Decoded (JArr [JObj [("question", JStr "q");
                                         ("options", JArr []);
                                         ("answer", JStr "A");
                                         ("category", JNull)]]))
         (mkArgs "files" "output" (Some "key") 1) None
         (Collector.mkListing true [("UAE", ["TAB_Report_2023.pdf"])]) in
  fst run = Uncaught
  /\ files_written (trace (snd run))
     = [ "output/UAE/Tabreed_questions.jsonl";
         "output/GCC_market_dataset.jsonl" ].
Proof. vm_compute. split; reflexivity. Qed.

End MainRuns.

(** * Further properties of the code *)

(** ** Chunker: count, overlap, coverage, provenance *)

Section ChunkerMore.

Import Chunker.

Lemma substring_nil (n m : nat) : substring n m "" = "".
Proof. destruct n, m; reflexivity. Qed.

Lemma substring_zero_length (s : string) : forall n, substring n 0 s = "".
Proof. induction s as [|c s IH]; intros [|n]; cbn; auto. Qed.

(** A slice of a slice is a slice. *)
Lemma substring_substring (s : string) :
  forall n p a m,
    substring a m (substring n p s) = substring (n + a) (Nat.min m (p - a)) s.
Proof.
  induction s as [|c s IH]; intros n p a m.
  - now rewrite !substring_nil.
  - destruct n as [|n].
    + destruct p as [|p].
      * change (substring 0 0 (String c s)) with "".
        rewrite substring_nil. cbn [Nat.sub Nat.add].
        rewrite Nat.min_0_r. now rewrite substring_zero_length.
      * cbn [substring Nat.add]. destruct a as [|a].
        -- destruct m as [|m]; [reflexivity|].
           cbn [substring Nat.sub]. rewrite <- Nat.succ_min_distr.
           cbn [substring]. f_equal.
           rewrite (IH 0 p 0 m). cbn [Nat.add]. now rewrite Nat.sub_0_r.
        -- cbn [substring Nat.sub]. rewrite (IH 0 p a m). reflexivity.
    + cbn [substring Nat.add]. apply IH.
Qed.

(** X1.  The number of chunks of a text of length L is 0 when L < 100 and
    (L - 100) div 1300 + 1 otherwise. *)
Theorem chunk_count (txt : string) (pdf_info : PdfInfo) :
  List.length (create_chunks_from_text txt pdf_info)
  = if String.length txt <? 100 then 0
    else (String.length txt - 100) / 1300 + 1.
Proof.
  rewrite create_chunks_from_text_eq, length_map, length_seq.
  reflexivity.
Qed.

(** X2.  Consecutive chunks overlap: what a chunk holds from offset 1300 on,
    between 100 and 200 characters, is the beginning of the next chunk. *)
Theorem consecutive_chunks_overlap (txt : string) (pdf_info : PdfInfo)
        (k : nat) (c c' : Chunk) :
  nth_error (create_chunks_from_text txt pdf_info) k = Some c ->
  nth_error (create_chunks_from_text txt pdf_info) (k + 1) = Some c' ->
  substring 1300 200 (text c) = substring 0 200 (text c')
  /\ 100 <= String.length (substring 1300 200 (text c)) <= 200.
Proof.
  intros Hc Hc'.
  apply nth_error_create_chunks in Hc. destruct Hc as [-> _].
  apply nth_error_create_chunks in Hc'. destruct Hc' as [-> Hk'].
  destruct (range_split (String.length txt)) as (_ & Hkept & _).
  specialize (Hkept (k + 1) Hk').
  cbn [text window_chunk]. unfold Py.slice, chunk_size.
  rewrite !substring_substring, !length_substring.
  split; [f_equal; lia|lia].
Qed.

Lemma consecutive_chunks_overlap_witness :
  substring 1300 200
            (text (window_chunk (text_of_length 2750) sample_info "2023" 0))
  = substring 0 200
              (text (window_chunk (text_of_length 2750) sample_info "2023" 1))
  /\ 100 <= String.length
              (substring 1300 200
                 (text (window_chunk (text_of_length 2750) sample_info "2023" 0)))
         <= 200.
Proof.
  apply (consecutive_chunks_overlap (text_of_length 2750) sample_info 0).
  - vm_compute. reflexivity.
  - vm_compute. reflexivity.
Defined.

(** X3.  Nothing of a text of at least 100 characters is lost: every
    position of the text lies in some chunk, at the offset the chunk's
    window gives it. *)
Theorem every_character_is_in_a_chunk (txt : string) (pdf_info : PdfInfo)
        (p : nat) :
  100 <= String.length txt ->
  p < String.length txt ->
  exists k c,
    nth_error (create_chunks_from_text txt pdf_info) k = Some c
    /\ k * 1300 <= p
    /\ p - k * 1300 < String.length (text c)
    /\ String.get (p - k * 1300) (text c) = String.get p txt.
Proof.
  intros HL Hp.
  destruct (range_split (String.length txt)) as (_ & Hkept & Hdrop).
  set (K := kept_count (String.length txt)) in *.
  assert (HK : 0 < K).
  { unfold K, kept_count. destruct (Nat.ltb_spec (String.length txt) 100); lia. }
  set (k := Nat.min (p / 1300) (K - 1)).
  assert (Hk : k < K) by (unfold k; lia).
  pose proof (Nat.div_mod_eq p 1300) as Hdiv.
  pose proof (Nat.mod_upper_bound p 1300 ltac:(lia)) as Hmod.
  specialize (Hdrop K (Nat.le_refl K)). specialize (Hkept k Hk).
  assert (Hlow : k * 1300 <= p) by (unfold k; lia).
  assert (Hhigh : p - k * 1300 < 1500).
  { unfold k. destruct (Nat.min_spec (p / 1300) (K - 1)) as [[_ ->]|[_ ->]]; lia. }
  exists k, (window_chunk txt pdf_info (year_of pdf_info) k).
  split; [|split; [exact Hlow|split]].
  - rewrite create_chunks_from_text_eq, nth_error_map, nth_error_seq.
    fold K. apply Nat.ltb_lt in Hk. now rewrite Hk.
  - cbn [text window_chunk]. rewrite length_window. unfold chunk_size. lia.
  - cbn [text window_chunk]. unfold Py.slice, chunk_size.
    rewrite substring_correct1 by lia. f_equal. lia.
Qed.

Lemma every_character_is_in_a_chunk_witness :
  exists k c,
    nth_error (create_chunks_from_text (text_of_length 1450) sample_info) k
    = Some c
    /\ k * 1300 <= 1449
    /\ 1449 - k * 1300 < String.length (text c)
    /\ String.get (1449 - k * 1300) (text c)
       = String.get 1449 (text_of_length 1450).
Proof.
  apply (every_character_is_in_a_chunk (text_of_length 1450) sample_info 1449).
  - vm_compute. lia.
  - vm_compute. lia.
Defined.

(** X30.  Every chunk has between 100 and 1500 characters, and the chunks
    of a document have pairwise distinct identifiers. *)
Theorem chunk_text_bounds (txt : string) (pdf_info : PdfInfo) :
  Forall (fun c => 100 <= String.length (text c) <= 1500)
         (create_chunks_from_text txt pdf_info)
  /\ NoDup (map chunk_id (create_chunks_from_text txt pdf_info)).
Proof.
  rewrite create_chunks_from_text_eq.
  destruct (range_split (String.length txt)) as (_ & Hkept & _).
  split.
  - apply Forall_forall. intros c Hc. apply in_map_iff in Hc.
    destruct Hc as (k & <- & Hk). apply in_seq in Hk.
    cbn [text window_chunk]. rewrite length_window. unfold chunk_size.
    specialize (Hkept k). lia.
  - rewrite map_map. cbn [chunk_id window_chunk].
    apply Injective_map_NoDup; [|apply seq_NoDup].
    intros a b H. apply str_injective in H. lia.
Qed.

End ChunkerMore.

Section YearFacts.

Import Chunker.





End YearFacts.

(** ** Company code *)

Section CodeMore.

Import Code.

Lemma dict_mem_In {V} (d : list (string * V)) (key : string) :
  Py.dict_mem d key = true -> In key (map fst d).
Proof.
  induction d as [|[k v] d IH]; cbn; [discriminate|].
  intros H. apply orb_true_iff in H. destruct H as [H|H].
  - left. now apply String.eqb_eq.
  - right. now apply IH.
Qed.

Lemma dict_get_In {V} (d : list (string * V)) (key : string) (default : V) :
  Py.dict_mem d key = true -> In (Py.dict_get d key default) (map snd d).
Proof.
  induction d as [|[k v] d IH]; cbn; [discriminate|].
  destruct (String.eqb k key); cbn; [now left|]. intros H. right. now apply IH.
Qed.

Lemma length_map_chars (f : ascii -> ascii) (s : string) :
  String.length (Py.map_chars f s) = String.length s.
Proof. induction s as [|c s IH]; cbn; [reflexivity|now rewrite IH]. Qed.

Lemma length_append (a b : string) :
  String.length (a ++ b) = String.length a + String.length b.
Proof. induction a as [|c a IH]; cbn; [reflexivity|now rewrite IH]. Qed.

Lemma length_take (n : nat) (s : string) : String.length (Py.take n s) <= n.
Proof. unfold Py.take. rewrite length_substring. lia. Qed.

Lemma to_upper_not_lower (c : ascii) : Py.is_lower (Py.to_upper c) = false.
Proof. destruct c as [[] [] [] [] [] [] [] []]; reflexivity. Qed.

Lemma upper_no_lowercase (s : string) : no_lowercase (Py.upper s) = true.
Proof.
  induction s as [|c s IH]; [reflexivity|].
  cbn [Py.upper Py.map_chars no_lowercase]. rewrite to_upper_not_lower.
  exact IH.
Qed.

(** X5.  Whatever the (ASCII) company name, its code has at most four
    characters and no lower-case letter. *)
Theorem company_code_shape (company_name : string) :
  String.length (generate_company_code company_name) <= 4
  /\ no_lowercase (generate_company_code company_name) = true.
Proof.
  unfold generate_company_code.
  destruct company_name as [|c rest] eqn:E; [split; [cbn; lia|reflexivity]|].
  rewrite <- E. clear E c rest.
  destruct (Py.dict_mem company_abbrev company_name) eqn:Hmem.
  - pose proof (dict_get_In company_abbrev company_name "" Hmem) as Hin.
    assert (Hall : Forall (fun code => String.length code <= 4
                                       /\ no_lowercase code = true)
                          (map snd company_abbrev)).
    { cbn. repeat constructor. }
    rewrite Forall_forall in Hall. apply Hall, Hin.
  - split; [|apply upper_no_lowercase].
    unfold Py.upper. rewrite length_map_chars.
    destruct (3 <=? List.length (Py.split_ws company_name)).
    + unfold Py.join.
      destruct (Py.split_ws company_name) as [|w1 [|w2 [|w3 ws]]];
        cbn [firstn map String.concat String.length]; try lia.
      * pose proof (length_take 1 w1). lia.
      * rewrite !length_append. cbn [String.length].
        pose proof (length_take 1 w1). pose proof (length_take 1 w2). lia.
      * rewrite !length_append. cbn [String.length].
        pose proof (length_take 1 w1). pose proof (length_take 1 w2).
        pose proof (length_take 1 w3). lia.
    + apply length_take.
Qed.

(** X6.  A file whose prefix is a code of the collector's table is grouped
    under a company whose generated code is that prefix again, in upper
    case: question identifiers start with the code the file name started
    with. *)
Theorem known_prefix_round_trip (file country : string) (g : string) :
  Collector.company_code_match file = Some g ->
  Py.dict_mem Collector.company_name_map (Py.upper g) = true ->
  generate_company_code (Collector.company_name_of file country) = Py.upper g.
Proof.
  intros Hmatch Hmem. unfold Collector.company_name_of. rewrite Hmatch.
  apply dict_mem_In in Hmem. cbn [Collector.company_name_map map fst] in Hmem.
  repeat (destruct Hmem as [<-|Hmem]; [vm_compute; reflexivity|]).
  contradiction.
Qed.

Lemma known_prefix_round_trip_witness :
  generate_company_code
    (Collector.company_name_of "enbd-annual_2022.pdf" "UAE")
  = Py.upper "enbd".
Proof.
  apply (known_prefix_round_trip "enbd-annual_2022.pdf" "UAE" "enbd").
  - vm_compute. reflexivity.
  - vm_compute. reflexivity.
Defined.

End CodeMore.

(** ** Corpus collector: grouping, keys, totals *)

Section CollectorMore.

Import Collector.





Lemma add_pdf_keys company_pdfs k r x :
  In x (map fst (add_pdf company_pdfs k r))
  <-> In x (map fst company_pdfs) \/ x = k.
Proof.
  induction company_pdfs as [|[k0 l0] rest IH]; cbn [add_pdf map fst In].
  - intuition.
  - destruct (String.eqb_spec k0 k) as [->|Hne]; cbn [map fst In].
    + intuition.
    + rewrite IH. intuition.
Qed.

Lemma add_pdf_NoDup company_pdfs k r :
  NoDup (map fst company_pdfs) -> NoDup (map fst (add_pdf company_pdfs k r)).
Proof.
  induction company_pdfs as [|[k0 l0] rest IH]; cbn [add_pdf map fst]; intros H.
  - constructor; [intros []|constructor].
  - inversion H as [|? ? Hnotin Hrest]; subst.
    destruct (String.eqb_spec k0 k) as [->|Hne]; cbn [map fst].
    + constructor; assumption.
    + constructor; [|now apply IH].
      rewrite add_pdf_keys. intros [Hin|Heq]; [contradiction|].
      now apply Hne.
Qed.

Lemma collection_keys_nodup_aux (dir : string) (l : Listing) :
  NoDup (map fst (collect_gcc_company_pdfs dir l)).
Proof.
  unfold collect_gcc_company_pdfs.
  destruct (negb (dir_exists l)); [constructor|].
  generalize (filter (fun d => negb (hidden (fst d))) (subdirs l)).
  intros dirs.
  assert (H : NoDup (map fst (@nil (string * list PdfRef)))) by constructor.
  revert H. generalize (@nil (string * list PdfRef)) as acc.
  induction dirs as [|[country files] dirs IH]; intros acc H; [exact H|].
  cbn [fold_left fst snd]. apply IH. clear IH. unfold collect_files.
  revert acc H. induction files as [|f files IHf]; intros acc H; [exact H|].
  cbn [fold_left]. apply IHf. now apply add_pdf_NoDup.
Qed.

(** X8.  No company name occurs twice among the keys of the collection,
    and every company has at least one PDF: every company is processed
    once, and its first PDF, which gives its country, exists. *)
Theorem collection_keys_are_distinct (dir : string) (l : Listing) :
  NoDup (map fst (collect_gcc_company_pdfs dir l))
  /\ Forall (fun kv => snd kv <> []) (collect_gcc_company_pdfs dir l).
Proof.
  split; [apply collection_keys_nodup_aux|apply collected_groups_nonempty].
Qed.

Lemma add_pdf_count company_pdfs k r :
  pdf_count (add_pdf company_pdfs k r) = S (pdf_count company_pdfs).
Proof.
  unfold pdf_count.
  induction company_pdfs as [|[k0 l0] rest IH]; cbn [add_pdf]; [reflexivity|].
  destruct (String.eqb k0 k); cbn [map snd concat].
  - rewrite !length_app. cbn [List.length]. lia.
  - rewrite !length_app, IH. lia.
Qed.

Lemma collect_files_count dir country files : forall acc,
  pdf_count (collect_files dir country acc files)
  = pdf_count acc + List.length files.
Proof.
  unfold collect_files.
  induction files as [|f files IH]; intros acc; cbn [fold_left List.length];
    [lia|].
  rewrite IH, add_pdf_count. lia.
Qed.

(** X9.  No file is lost or counted twice: the groups of the collection
    hold together as many references as the visible country directories
    list PDF files (none when the input directory does not exist). *)
Theorem collection_counts_every_pdf (dir : string) (l : Listing) :
  pdf_count (collect_gcc_company_pdfs dir l)
  = if dir_exists l
    then List.length
           (concat (map snd (filter (fun d => negb (hidden (fst d)))
                                    (subdirs l))))
    else 0.
Proof.
  unfold collect_gcc_company_pdfs.
  destruct (dir_exists l); cbn [negb]; [|reflexivity].
  generalize (filter (fun d => negb (hidden (fst d))) (subdirs l)).
  intros dirs.
  change (List.length (concat (map snd dirs)))
    with (pdf_count [] + List.length (concat (map snd dirs))).
  generalize (@nil (string * list PdfRef)) as acc.
  induction dirs as [|[country files] dirs IH]; intros acc.
  - cbn [fold_left map concat List.length]. lia.
  - cbn [fold_left fst snd map concat]. rewrite IH, collect_files_count.
    rewrite length_app. lia.
Qed.

End CollectorMore.

(** ** Question synthesizer: categories, provenance, complete answers *)

Section SynthMore.

Import Synth.

Lemma format_question_source_type ctx code c q fq :
  format_question ctx code c q = inr fq ->
  source_type (metadata fq) = source_type_for (category (metadata fq))
  /\ match category (metadata fq) with
     | JArr _ | JObj _ => False
     | _ => True
     end.
Proof.
  unfold format_question. destruct q; try discriminate.
  destruct (source_type_of _) as [|st] eqn:Est; try discriminate.
  destruct (negb (is_chunk ctx) && _);
    destruct (subscript fields "question"); try discriminate;
    destruct (subscript fields "options"); try discriminate;
    destruct (subscript fields "answer"); try discriminate;
    intros [= <-]; cbn [metadata category source_type]; [split; auto|].
  destruct (get_default fields "category" (JStr "Miscellaneous"));
    cbn in Est; try discriminate; injection Est as <-; split; auto.
Qed.

(** X11.  In both modes, the source type of every returned question is the
    one the fixed table gives for the question's category ("miscellaneous"
    for a category outside the table or not a string), and no returned
    category is a list or a dictionary. *)
Theorem source_type_follows_category
        (data : Data) (client : Client) (code : string) (c : nat) (n : Z) :
  Forall (fun q =>
            source_type (metadata q) = source_type_for (category (metadata q))
            /\ match category (metadata q) with
               | JArr _ | JObj _ => False
               | _ => True
               end)
         (fst (generate_questions data client code c n)).
Proof.
  apply generate_questions_Forall. intros c0 q fq.
  apply format_question_source_type.
Qed.

(** X12.  In chunk mode every returned question carries the company, the
    report year, the source file and the chunk id of the chunk it was
    asked about, whatever the service answered. *)
Theorem chunk_mode_provenance
        (chunk : Chunk) (client : Client) (code : string) (c : nat) (n : Z) :
  Forall (fun q =>
            md_company (metadata q) = chunk_company chunk
            /\ md_report_year (metadata q) = report_year chunk
            /\ md_source_file (metadata q) = source_file chunk
            /\ source_chunk_id (metadata q) = chunk_id chunk)
         (fst (generate_questions (OfChunk chunk) client code c n)).
Proof.
  apply generate_questions_Forall. intros c0 q fq H.
  apply format_question_fields in H.
  destruct H as (_ & -> & -> & -> & ->). repeat split.
Qed.

Lemma format_question_complete ctx code c item :
  complete item = true ->
  exists fq,
    format_question ctx code c item = inr fq
    /\ question fq = field "question" JNull item
    /\ options fq = field "options" JNull item
    /\ answer fq = field "answer" JNull item
    /\ difficulty (metadata fq) = field "difficulty" (JStr "medium") item.
Proof.
  unfold complete, has_key, field, format_question, subscript, get_default.
  destruct item as [| | | | |fields]; try discriminate.
  destruct (lookup fields "question") as [q|]; [|discriminate].
  destruct (lookup fields "options") as [o|]; [|discriminate].
  destruct (lookup fields "answer") as [a|]; [|discriminate].
  cbn [andb]. destruct (lookup fields "category") as [cat|].
  - destruct cat; try discriminate; intros _; cbn [source_type_of];
      destruct (negb (is_chunk ctx) && _); eexists; repeat split.
  - intros _. cbn [source_type_of].
    destruct (negb (is_chunk ctx) && _); eexists; repeat split.
Qed.

Lemma format_loop_complete ctx code items :
  forallb complete items = true ->
  forall c acc,
    exists new,
      format_loop ctx code items c acc
      = (inr (acc ++ new)%list, c + List.length items)
      /\ map question new = map (field "question" JNull) items
      /\ map options new = map (field "options" JNull) items
      /\ map answer new = map (field "answer" JNull) items
      /\ map (fun q => difficulty (metadata q)) new
         = map (field "difficulty" (JStr "medium")) items.
Proof.
  induction items as [|item items IH]; intros Hall c acc.
  - exists []. cbn. rewrite app_nil_r, Nat.add_0_r. repeat split.
  - cbn [forallb] in Hall. apply andb_true_iff in Hall.
    destruct Hall as [Hitem Hitems].
    destruct (format_question_complete ctx code (c + 1) item Hitem)
      as (fq & Hfq & Hq & Ho & Ha & Hd).
    destruct (IH Hitems (c + 1) (acc ++ [fq])%list)
      as (new & Hloop & Hqs & Hos & Has & Hds).
    exists (fq :: new). cbn [format_loop]. rewrite Hfq, Hloop.
    rewrite <- app_assoc. cbn [app List.length map].
    rewrite Hq, Ho, Ha, Hd, Hqs, Hos, Has, Hds.
    split; [f_equal; lia|repeat split].
Qed.

(** X13.  When the decoded response is an array of complete question
    objects, the call returns one question per object, in order, however
    many were asked for: question, options and answer are the object's
    values, the difficulty is the object's or "medium", the identifiers
    are numbered from the counter plus one, and the counter comes back
    advanced by the number of objects. *)
Theorem complete_array_is_formatted_whole
        (data : Data) (items : list json) (code : string) (c : nat) (n : Z) :
  forallb complete items = true ->
  let r := generate_questions data (fun _ => Decoded (JArr items)) code c n in
  snd r = c + List.length items
  /\ map id (fst r)
     = map (fun k => code ++ Py.str (c + k)) (seq 1 (List.length items))
  /\ map question (fst r) = map (field "question" JNull) items
  /\ map options (fst r) = map (field "options" JNull) items
  /\ map answer (fst r) = map (field "answer" JNull) items
  /\ map (fun q => difficulty (metadata q)) (fst r)
     = map (field "difficulty" (JStr "medium")) items.
Proof.
  intros Hall. cbv zeta. unfold generate_questions. cbn [iterate].
  destruct (format_loop_complete (context_of data) code items Hall c [])
    as (new & Hloop & Hqs & Hos & Has & Hds).
  pose proof (format_loop_ids _ _ _ _ _ _ _ Hloop) as (_ & new' & Hnew & Hids).
  cbn [app] in Hnew. subst new'.
  rewrite Hloop. cbn [fst snd app]. repeat split; assumption.
Qed.

Lemma complete_array_is_formatted_whole_witness :
  forallb complete (repeat sample_item 7) = true
  /\ List.length
       (fst (generate_questions (OfChunk sample_chunk)
                                (fun _ => Decoded (JArr (repeat sample_item 7)))
                                "TAB" 1000 5))
     = 7.
Proof.
  split; [reflexivity|].
  destruct (complete_array_is_formatted_whole
              (OfChunk sample_chunk) (repeat sample_item 7) "TAB" 1000 5
              eq_refl)
    as (_ & Hids & _).
  apply (f_equal (@List.length _)) in Hids.
  rewrite !length_map, length_seq in Hids. exact Hids.
Defined.

(** X14.  The identifiers a call returns are the company code followed by
    the counter plus 1, plus 2, ... in order, and the counter it returns is
    at least the counter given plus the number of questions returned: a
    later call never hands out one of these identifiers again. *)
Theorem call_numbers_from_its_counter
        (data : Data) (client : Client) (code : string) (c : nat) (n : Z) :
  let r := generate_questions data client code c n in
  map id (fst r)
  = map (fun k => code ++ Py.str (c + k)) (seq 1 (List.length (fst r)))
  /\ c + List.length (fst r) <= snd r.
Proof.
  cbv zeta.
  destruct (generate_questions_counter data client code c n)
    as [[Hsnd Hids]|[Hnil Hle]]; cbv zeta in *.
  - split; [exact Hids|lia].
  - rewrite Hnil. cbn [map List.length seq]. split; [reflexivity|lia].
Qed.

End SynthMore.

(** ** Question synthesizer: what a failed call returns *)

Section SynthErrors.

Import Synth.

(** X27.  A call whose request raises, whose cleaned response the decoder
    rejects, or whose decoded value is null, a boolean or a number returns
    no question and the counter it was given. *)
Theorem failure_before_the_loop_keeps_the_counter
        (json_loads : string -> option json) (response : option string)
        (data : Data) (code : string) (c : nat) (n : Z) :
  match response with
  | None => True
  | Some content =>
      match json_loads (Response.clean_response content) with
      | None | Some JNull | Some (JBool _) | Some (JNum _) => True
      | Some _ => False
      end
  end ->
  generate_questions data (fun _ => Response.decode json_loads response) code c n
  = ([], c).
Proof.
  unfold generate_questions, Response.decode.
  destruct response as [content|]; [|reflexivity]. cbv zeta.
  destruct (json_loads (Response.clean_response content)) as [v|];
    [|reflexivity].
  destruct v; intros H; try contradiction; reflexivity.
Qed.

Lemma failure_before_the_loop_keeps_the_counter_witness :
  generate_questions (OfChunk sample_chunk)
                     (fun _ => Response.decode sample_loads (Some "not json"))
                     "TAB" 1000 5
  = ([], 1000).
Proof.
  apply (failure_before_the_loop_keeps_the_counter
           sample_loads (Some "not json")).
  exact I.
Defined.

(** X28.  Only an array yields questions: when the decoded response is an
    object, a string, a number, a boolean or null, the call returns no
    question. *)
Theorem only_an_array_yields_questions
        (data : Data) (v : json) (code : string) (c : nat) (n : Z) :
  fst (generate_questions data (fun _ => Decoded v) code c n) <> [] ->
  exists items, v = JArr items.
Proof.
  unfold generate_questions. destruct v as [| | |s|items|fields]; cbn [iterate];
    try (intros H; now contradiction H).
  - destruct s as [|ch s]; cbn [chars]; [intros H; now contradiction H|].
    cbn [format_loop format_question]. intros H. now contradiction H.
  - intros _. now exists items.
  - destruct fields as [|[k x] fields]; cbn [map];
      [intros H; now contradiction H|].
    cbn [format_loop format_question fst]. intros H. now contradiction H.
Qed.

Lemma only_an_array_yields_questions_witness :
  exists items, JArr [sample_item] = JArr items.
Proof.
  apply (only_an_array_yields_questions
           (OfChunk sample_chunk) (JArr [sample_item]) "TAB" 1000 5).
  vm_compute. discriminate.
Defined.

Lemma format_question_incomplete ctx code c item :
  complete item = false -> exists e, format_question ctx code c item = inl e.
Proof.
  unfold complete, has_key, field, format_question, subscript, get_default.
  destruct item as [| | | | |fields]; try (intros _; eexists; reflexivity).
  destruct (lookup fields "category") as [cat|].
  - destruct cat; cbn [source_type_of];
      try (intros _; eexists; reflexivity);
      destruct (negb (is_chunk ctx) && _);
      destruct (lookup fields "question");
      destruct (lookup fields "options");
      destruct (lookup fields "answer");
      cbn; intros H; try discriminate H; eexists; reflexivity.
  - cbn [source_type_of].
    destruct (negb (is_chunk ctx) && _);
      destruct (lookup fields "question");
      destruct (lookup fields "options");
      destruct (lookup fields "answer");
      cbn; intros H; try discriminate H; eexists; reflexivity.
Qed.

Lemma format_loop_incomplete ctx code items :
  forallb complete items = false ->
  forall c acc, exists e c', format_loop ctx code items c acc = (inl e, c').
Proof.
  induction items as [|item items IH]; [discriminate|].
  cbn [forallb]. intros H c acc. cbn [format_loop].
  destruct (complete item) eqn:Ei.
  - destruct (format_question_complete ctx code (c + 1) item Ei)
      as (fq & -> & _).
    apply IH. exact H.
  - destruct (format_question_incomplete ctx code (c + 1) item Ei) as [e ->].
    now exists e, (c + 1).
Qed.

(** X29.  One incomplete item costs the whole batch: when some object of
    the decoded array lacks "question", "options" or "answer", has a list
    or a dictionary as category, or is no object at all, the call returns
    no question, also not those formatted before it. *)
Theorem incomplete_item_drops_the_batch
        (data : Data) (items : list json) (code : string) (c : nat) (n : Z) :
  forallb complete items = false ->
  fst (generate_questions data (fun _ => Decoded (JArr items)) code c n) = [].
Proof.
  intros H. unfold generate_questions. cbn [iterate].
  destruct (format_loop_incomplete (context_of data) code items H c [])
    as (e & c' & ->).
  reflexivity.
Qed.

Lemma incomplete_item_drops_the_batch_witness :
  fst (generate_questions
         (OfChunk sample_chunk)
         (fun _ => Decoded (JArr [sample_item; sample_item_without_answer]))
         "TAB" 1000 5)
  = [].
Proof.
  apply (incomplete_item_drops_the_batch
           (OfChunk sample_chunk) [sample_item; sample_item_without_answer]).
  reflexivity.
Defined.

End SynthErrors.

(** ** Cleaning a response *)

Section ResponseFacts.

Import Response.

Lemma append_assoc (a b c : string) : a ++ b ++ c = (a ++ b) ++ c.
Proof. induction a as [|x a IH]; cbn [append]; [reflexivity|now rewrite IH]. Qed.

Lemma prefix_nil (s : string) : String.prefix "" s = true.
Proof. now destruct s. Qed.

Lemma prefix_fence (tail : string) : String.prefix fence (fence ++ tail) = true.
Proof. cbn. apply prefix_nil. Qed.

Lemma prefix_tag (x : string) : String.prefix "json" ("json" ++ x) = true.
Proof. cbn. apply prefix_nil. Qed.

Lemma closes_unfold (s : string) :
  closes s
  = String.prefix fence s
    || match s with
       | EmptyString => false
       | String c s' => Py.is_space c && closes s'
       end.
Proof. now destruct s. Qed.

Lemma lazy_group_unfold (s : string) :
  lazy_group s
  = if closes s then Some EmptyString
    else match s with
         | EmptyString => None
         | String c s' => option_map (String c) (lazy_group s')
         end.
Proof. now destruct s. Qed.

Lemma closes_fence (tail : string) : closes (fence ++ tail) = true.
Proof. now rewrite closes_unfold, prefix_fence. Qed.

Lemma lstrip_spaces (w x : string) :
  all_space w = true -> lstrip (w ++ x) = lstrip x.
Proof.
  induction w as [|c w IH]; cbn; [reflexivity|].
  intros H. apply andb_true_iff in H. destruct H as [-> Hw]. now apply IH.
Qed.

Lemma rstrip_cons_nonspace (c : ascii) (s : string) :
  Py.is_space c = false -> rstrip (String c s) = String c (rstrip s).
Proof. intros Hc. cbn. rewrite Hc. now destruct (rstrip s). Qed.

Lemma rstrip_app (a x : string) :
  rstrip x <> "" -> rstrip (a ++ x) = a ++ rstrip x.
Proof.
  intros Hx. induction a as [|c a IH]; [reflexivity|].
  cbn [append rstrip]. rewrite IH.
  destruct (a ++ rstrip x) eqn:E; [|reflexivity].
  destruct a; [contradiction|discriminate].
Qed.

Lemma rstrip_self_tail (c : ascii) (s : string) :
  rstrip (String c s) = String c s -> rstrip s = s.
Proof.
  cbn. destruct (rstrip s) as [|d r] eqn:E.
  - destruct (Py.is_space c); [discriminate|]. now intros [= <-].
  - now intros [= <-].
Qed.

Lemma closes_spaces (w tail : string) :
  all_space w = true -> closes (w ++ fence ++ tail) = true.
Proof.
  induction w as [|c w IH]; intros H; [apply closes_fence|].
  cbn [all_space] in H. apply andb_true_iff in H. destruct H as [Hc Hw].
  rewrite closes_unfold. cbn [append]. rewrite Hc, (IH Hw). cbn.
  apply orb_true_r.
Qed.

Lemma prefix_fence_cons (c : ascii) (s : string) :
  Ascii.eqb c "`" = false -> String.prefix fence (String c s) = false.
Proof.
  intros Hc. unfold fence. cbn [String.prefix].
  destruct (ascii_dec "`" c) as [<-|_]; [discriminate Hc|reflexivity].
Qed.

(** The closing part of the pattern does not match where text that is
    neither white space nor a backtick still lies ahead. *)
Lemma closes_before_text (u v : string) :
  no_backtick u = true -> rstrip u <> "" -> closes (u ++ v) = false.
Proof.
  induction u as [|c u IH]; intros Hb Hr; [contradiction|].
  cbn [no_backtick] in Hb. apply andb_true_iff in Hb. destruct Hb as [Hc Hu].
  apply negb_true_iff in Hc.
  rewrite closes_unfold. cbn [append].
  rewrite (prefix_fence_cons _ _ Hc). cbn [orb].
  destruct (Py.is_space c) eqn:Hs; [|reflexivity]. cbn [andb].
  apply IH; [exact Hu|]. intros E. apply Hr. cbn. now rewrite E, Hs.
Qed.

Lemma lazy_group_body (b : string) : forall w2 tail,
  no_backtick b = true -> rstrip b = b -> all_space w2 = true ->
  lazy_group (b ++ w2 ++ fence ++ tail) = Some b.
Proof.
  induction b as [|c b IH]; intros w2 tail Hb Hr Hw.
  - cbn [append]. rewrite lazy_group_unfold.
    now rewrite (closes_spaces _ tail Hw).
  - assert (Hcl : closes (String c b ++ w2 ++ fence ++ tail) = false).
    { apply closes_before_text; [exact Hb|]. rewrite Hr. discriminate. }
    rewrite lazy_group_unfold, Hcl. cbn [append].
    cbn [no_backtick] in Hb. apply andb_true_iff in Hb.
    rewrite IH; [reflexivity|apply Hb|eapply rstrip_self_tail, Hr|exact Hw].
Qed.

Lemma after_tag_spaces (w x : string) (g : string) :
  all_space w = true ->
  after_tag x = Some g ->
  after_tag (w ++ x) = Some g.
Proof.
  intros Hw Hx. induction w as [|c w IH]; [exact Hx|].
  cbn [all_space] in Hw. apply andb_true_iff in Hw. destruct Hw as [Hc Hw].
  cbn [append after_tag]. now rewrite Hc, (IH Hw).
Qed.

Lemma after_tag_body (w1 body w2 tail : string) :
  all_space w1 = true -> all_space w2 = true ->
  no_backtick body = true -> lstrip body = body -> rstrip body = body ->
  after_tag (w1 ++ body ++ w2 ++ fence ++ tail) = Some body.
Proof.
  intros H1 H2 Hb Hl Hr. apply after_tag_spaces; [exact H1|].
  destruct body as [|c b].
  - cbn [append]. clear H1. induction w2 as [|s w2 IH].
    + cbn [append]. unfold fence at 1. cbn [append after_tag].
      replace (Py.is_space "`") with false by reflexivity.
      change (String "`" (String "`" (String "`" tail))) with (fence ++ tail).
      now rewrite lazy_group_unfold, closes_fence.
    + cbn [all_space] in H2. apply andb_true_iff in H2.
      destruct H2 as [Hs H2].
      cbn [append after_tag]. now rewrite Hs, (IH H2).
  - assert (Hc : Py.is_space c = false).
    { destruct (Py.is_space c) eqn:E; [|reflexivity]. exfalso.
      cbn [lstrip] in Hl. rewrite E in Hl.
      assert (Hlen : String.length (lstrip b) <= String.length b).
      { clear. induction b as [|d b IH]; cbn; [lia|].
        destruct (Py.is_space d); cbn; lia. }
      rewrite Hl in Hlen. cbn in Hlen. lia. }
    cbn [append after_tag]. rewrite Hc.
    change (String c (b ++ w2 ++ fence ++ tail))
      with (String c b ++ w2 ++ fence ++ tail).
    now apply lazy_group_body.
Qed.

(** When the tag is absent, the text after the opening fence must not be
    read as the tag. *)
Lemma no_tag_read (x w2 tail : string) :
  String.prefix "json" x = false -> all_space w2 = true ->
  String.prefix "json" (x ++ w2 ++ fence ++ tail) = false.
Proof.
  intros Hx Hw.
  assert (Hy : forall p : ascii,
             Py.is_space p = false -> Ascii.eqb p "`" = false ->
             forall rest, String.prefix (String p rest) (w2 ++ fence ++ tail)
                          = false).
  { intros p Hp Hq rest. unfold fence.
    destruct w2 as [|s w2]; cbn [append String.prefix].
    - destruct (ascii_dec p "`") as [->|_]; [discriminate Hq|reflexivity].
    - cbn [all_space] in Hw. apply andb_true_iff in Hw. destruct Hw as [Hs _].
      destruct (ascii_dec p s) as [->|_]; [congruence|reflexivity]. }
  destruct x as [|c1 [|c2 [|c3 [|c4 x]]]]; cbn [append].
  - apply Hy; reflexivity.
  - cbn [String.prefix]. destruct (ascii_dec "j" c1); [|reflexivity].
    apply Hy; reflexivity.
  - cbn [String.prefix]. destruct (ascii_dec "j" c1); [|reflexivity].
    destruct (ascii_dec "s" c2); [|reflexivity]. apply Hy; reflexivity.
  - cbn [String.prefix]. destruct (ascii_dec "j" c1); [|reflexivity].
    destruct (ascii_dec "s" c2); [|reflexivity].
    destruct (ascii_dec "o" c3); [|reflexivity]. apply Hy; reflexivity.
  - cbn [String.prefix] in *. rewrite prefix_nil in Hx. rewrite prefix_nil.
    exact Hx.
Qed.

Lemma match_here_fenced (tagged : bool) (w1 body w2 tail : string) :
  all_space w1 = true -> all_space w2 = true ->
  no_backtick body = true -> lstrip body = body -> rstrip body = body ->
  (tagged = false -> String.prefix "json" (w1 ++ body) = false) ->
  match_here (fenced tagged w1 body w2 tail) = Some body.
Proof.
  intros H1 H2 Hb Hl Hr Htag.
  pose proof (after_tag_body w1 body w2 tail H1 H2 Hb Hl Hr) as Hafter.
  assert (Hdrop : forall x, drop 3 (fence ++ x) = x) by reflexivity.
  assert (Hdrop4 : forall x, drop 4 ("json" ++ x) = x) by reflexivity.
  unfold fenced, match_here. change "```" with fence.
  rewrite prefix_fence, Hdrop. destruct tagged.
  - now rewrite prefix_tag, Hdrop4, Hafter.
  - cbn [append].
    assert (Hno : String.prefix "json" (w1 ++ body ++ w2 ++ fence ++ tail)
                  = false).
    { specialize (Htag eq_refl).
      rewrite append_assoc. now apply no_tag_read. }
    now rewrite Hno, Hafter.
Qed.

Lemma strip_fenced (lead : string) (tagged : bool) (w1 body w2 tail : string) :
  all_space lead = true ->
  strip (lead ++ fenced tagged w1 body w2 tail)
  = fenced tagged w1 body w2 (rstrip tail).
Proof.
  intros Hlead. unfold strip. rewrite (lstrip_spaces _ _ Hlead).
  assert (Hclose : forall t, rstrip (fence ++ t) = fence ++ rstrip t).
  { intros t. unfold fence. cbn [append].
    now rewrite !rstrip_cons_nonspace by reflexivity. }
  assert (Hne : forall t, rstrip (fence ++ t) <> "").
  { intros t. rewrite Hclose. discriminate. }
  assert (Happ : forall a x, rstrip x <> "" -> rstrip (a ++ x) <> "").
  { intros a x Hx. rewrite rstrip_app by exact Hx.
    destruct a; [exact Hx|discriminate]. }
  unfold fenced. change "```" with fence.
  change (lstrip (fence ++ ?x)) with (fence ++ x).
  rewrite 5!rstrip_app by (repeat first [apply Hne | apply Happ]).
  now rewrite Hclose.
Qed.

Lemma clean_response_fenced lead tagged w1 body w2 tail :
  all_space lead = true -> all_space w1 = true -> all_space w2 = true ->
  no_backtick body = true -> lstrip body = body -> rstrip body = body ->
  (tagged = false -> String.prefix "json" (w1 ++ body) = false) ->
  clean_response (lead ++ fenced tagged w1 body w2 tail) = body.
Proof.
  intros H0 H1 H2 Hb Hl Hr Htag. unfold clean_response.
  rewrite (strip_fenced _ _ _ _ _ _ H0). unfold clean_fences.
  assert (Hp : String.prefix fence (fenced tagged w1 body w2 (rstrip tail))
               = true) by apply prefix_fence.
  assert (Hc : contains_fence (fenced tagged w1 body w2 (rstrip tail)) = true).
  { unfold fenced. change "```" with fence.
    unfold fence at 1. cbn [append contains_fence].
    change (String "`" (String "`" (String "`" ?x))) with (fence ++ x).
    now rewrite prefix_fence. }
  rewrite Hp, Hc. cbn [andb].
  assert (Hs : search (fenced tagged w1 body w2 (rstrip tail)) = Some body).
  { pose proof (match_here_fenced tagged w1 body w2 (rstrip tail)
                                  H1 H2 Hb Hl Hr Htag) as Hm.
    unfold fenced in *. cbn [append search]. cbn [append] in Hm.
    now rewrite Hm. }
  rewrite Hs. unfold strip. now rewrite Hl, Hr.
Qed.

Lemma clean_response_bare body :
  no_backtick body = true -> lstrip body = body -> rstrip body = body ->
  clean_response body = body.
Proof.
  intros Hb Hl Hr. unfold clean_response, strip. rewrite Hl, Hr.
  unfold clean_fences. destruct body as [|c b]; [reflexivity|].
  cbn [no_backtick] in Hb. apply andb_true_iff in Hb. destruct Hb as [Hc _].
  apply negb_true_iff in Hc. now rewrite (prefix_fence_cons _ _ Hc).
Qed.

(** X15.  A response that wraps its body in a fenced block, tagged "json"
    or not, with any white space around the fences and the body and any
    text after the closing fence, is decoded exactly like the bare body.
    The body has no backtick and no white space at its ends; without the
    tag, what follows the opening fence must not begin with "json". *)
Theorem fenced_response_decodes_like_its_body
        (json_loads : string -> option json)
        (lead : string) (tagged : bool) (w1 body w2 tail : string) :
  all_space lead = true -> all_space w1 = true -> all_space w2 = true ->
  no_backtick body = true -> lstrip body = body -> rstrip body = body ->
  (tagged = false -> String.prefix "json" (w1 ++ body) = false) ->
  decode json_loads (Some (lead ++ fenced tagged w1 body w2 tail))
  = decode json_loads (Some body).
Proof.
  intros H0 H1 H2 Hb Hl Hr Htag. unfold decode.
  rewrite (clean_response_fenced _ _ _ _ _ _ H0 H1 H2 Hb Hl Hr Htag).
  now rewrite (clean_response_bare _ Hb Hl Hr).
Qed.

Lemma fenced_response_decodes_like_its_body_witness :
  decode sample_loads
         (Some (" " ++ fenced true (String "010" "") "[]" (String "010" "") ""))
  = Synth.Decoded (JArr []).
Proof.
  rewrite (fenced_response_decodes_like_its_body
             sample_loads " " true (String "010" "") "[]" (String "010" "") "");
    reflexivity.
Defined.

Lemma contains_fence_unfold (s : string) :
  contains_fence s
  = String.prefix fence s
    || match s with
       | EmptyString => false
       | String _ s' => contains_fence s'
       end.
Proof. now destruct s. Qed.

Lemma contains_fence_cons (c : ascii) (s : string) :
  contains_fence s = true -> contains_fence (String c s) = true.
Proof.
  intros H. rewrite contains_fence_unfold, H. apply orb_true_r.
Qed.

Lemma contains_fence_drop (n : nat) : forall s,
  contains_fence (drop n s) = true -> contains_fence s = true.
Proof.
  induction n as [|n IH]; intros s H; [exact H|].
  destruct s as [|c s]; [exact H|].
  apply contains_fence_cons, IH, H.
Qed.

Lemma closes_contains (s : string) :
  closes s = true -> contains_fence s = true.
Proof.
  induction s as [|c s IH]; rewrite closes_unfold, contains_fence_unfold.
  - now rewrite orb_false_r.
  - intros H. apply orb_true_iff in H. destruct H as [->|H]; [reflexivity|].
    apply andb_true_iff in H. rewrite (IH (proj2 H)). apply orb_true_r.
Qed.

Lemma lazy_group_contains (s : string) : forall g,
  lazy_group s = Some g -> contains_fence s = true.
Proof.
  induction s as [|c s IH]; intros g; rewrite lazy_group_unfold.
  - destruct (closes "") eqn:E; [|discriminate].
    intros _. now apply closes_contains.
  - destruct (closes (String c s)) eqn:E; [intros _; now apply closes_contains|].
    destruct (lazy_group s) as [g'|] eqn:Eg; [|discriminate].
    intros _. apply contains_fence_cons. eapply IH. reflexivity.
Qed.

Lemma after_tag_contains (s : string) : forall g,
  after_tag s = Some g -> contains_fence s = true.
Proof.
  induction s as [|c s IH]; intros g; cbn [after_tag].
  - apply lazy_group_contains.
  - destruct (Py.is_space c); [|apply lazy_group_contains].
    destruct (after_tag s) as [g'|] eqn:E; [|apply lazy_group_contains].
    intros _. apply contains_fence_cons. eapply IH. reflexivity.
Qed.

Lemma match_here_contains (s : string) (g : string) :
  match_here s = Some g -> contains_fence (drop 3 s) = true.
Proof.
  unfold match_here. destruct (String.prefix fence s); [|discriminate].
  cbv zeta. destruct (String.prefix "json" (drop 3 s));
    [|apply after_tag_contains].
  destruct (after_tag (drop 4 (drop 3 s))) as [g'|] eqn:E;
    [|apply after_tag_contains].
  intros _. apply (contains_fence_drop 4). eapply after_tag_contains, E.
Qed.

Lemma search_contains (s : string) : forall g,
  search s = Some g -> contains_fence (drop 3 s) = true.
Proof.
  induction s as [|c s IH]; intros g; cbn [search].
  - destruct (match_here "") eqn:E; [|discriminate].
    intros _. eapply match_here_contains, E.
  - destruct (match_here (String c s)) eqn:E;
      [intros _; eapply match_here_contains, E|].
    intros H. apply IH in H.
    change (drop 3 (String c s)) with (drop 2 s).
    clear -H. destruct s as [|c1 [|c2 [|c3 s]]]; try exact H.
    cbn [drop] in *. now apply contains_fence_cons.
Qed.

(** X16.  A response that does not open with a fence, or opens with one
    that is never closed (no further fence after the first three
    characters), reaches the decoder stripped of the white space at its
    ends and otherwise unchanged. *)
Theorem unfenced_response_is_only_stripped (content : string) :
  String.prefix fence (strip content) = false
  \/ contains_fence (drop 3 (strip content)) = false ->
  clean_response content = strip content.
Proof.
  unfold clean_response, clean_fences. intros [->|H]; [reflexivity|].
  destruct (String.prefix fence (strip content) && _); [|reflexivity].
  destruct (search (strip content)) as [g|] eqn:E; [|reflexivity].
  apply search_contains in E. congruence.
Qed.

Lemma unfenced_response_is_only_stripped_witness :
  clean_response " ```json [1, 2" = "```json [1, 2".
Proof.
  apply (unfenced_response_is_only_stripped " ```json [1, 2").
  right. reflexivity.
Defined.

End ResponseFacts.

(** ** Text extraction *)

Section ExtractorFacts.

Import Extractor.

Lemma append_nil_r (s : string) : s ++ "" = s.
Proof. induction s as [|c s IH]; cbn; [reflexivity|now rewrite IH]. Qed.

Lemma concat_cons (x : string) (xs : list string) :
  String.concat "" (x :: xs) = x ++ String.concat "" xs.
Proof. destruct xs; cbn [String.concat append]; [now rewrite append_nil_r|reflexivity]. Qed.

Lemma extract_pages_texts (texts : list string) : forall text,
  extract_pages (map Some texts) text
  = Some (text ++ String.concat
                    "" (map (fun t => t ++ String "010" (String "010" ""))
                            texts)).
Proof.
  induction texts as [|t texts IH]; intros text; cbn [map extract_pages].
  - cbn [String.concat]. now rewrite append_nil_r.
  - rewrite IH, concat_cons. now rewrite <- !append_assoc.
Qed.

Lemma extract_pages_raises (pages : list (option string)) : forall text,
  In None pages -> extract_pages pages text = None.
Proof.
  induction pages as [|[t|] pages IH]; intros text H; cbn [extract_pages].
  - contradiction.
  - apply IH. destruct H as [H|H]; [discriminate|exact H].
  - reflexivity.
Qed.

(** X17.  Extraction is all or nothing: one page whose text cannot be
    extracted makes the whole document unreadable, and a document whose
    pages all give text yields these texts in page order, each followed by
    two line feeds. *)
Theorem extraction_is_all_or_nothing (pages : list (option string)) :
  (In None pages -> extract_text_from_pdf (Readable pages) = None)
  /\ (forall texts,
        pages = map Some texts ->
        extract_text_from_pdf (Readable pages)
        = Some (String.concat
                  "" (map (fun t => t ++ String "010" (String "010" ""))
                          texts))).
Proof.
  split.
  - intros H. now apply extract_pages_raises.
  - intros texts ->. cbn [extract_text_from_pdf].
    now rewrite extract_pages_texts.
Qed.

Lemma extraction_is_all_or_nothing_witness :
  extract_text_from_pdf (Readable [Some "first page"; None; Some "third"])
  = None.
Proof.
  apply (extraction_is_all_or_nothing [Some "first page"; None; Some "third"]).
  right. left. reflexivity.
Defined.

Lemma extract_pages_length (pages : list (option string)) : forall text txt,
  extract_pages pages text = Some txt ->
  String.length text + 2 * List.length pages <= String.length txt.
Proof.
  induction pages as [|[t|] pages IH]; intros text txt; cbn [extract_pages].
  - intros [= <-]. cbn. lia.
  - intros H. apply IH in H. rewrite !length_append in H.
    cbn [String.length List.length] in *. lia.
  - discriminate.
Qed.

(** X18.  An extracted text has at least two characters per page, so it
    is empty, and the document skipped by the driving loop, only for a
    document without pages; a document of fifty pages or more always gives
    at least one chunk. *)
Theorem extracted_text_length (pages : list (option string)) (txt : string)
        (pdf_info : PdfInfo) :
  extract_text_from_pdf (Readable pages) = Some txt ->
  2 * List.length pages <= String.length txt
  /\ (txt = "" <-> pages = [])
  /\ (50 <= List.length pages ->
      Chunker.create_chunks_from_text txt pdf_info <> []).
Proof.
  intros H. cbn [extract_text_from_pdf] in H.
  pose proof (extract_pages_length _ _ _ H) as Hlen. cbn [String.length] in Hlen.
  split; [lia|]. split; [split|].
  - intros ->. cbn in Hlen. destruct pages; [reflexivity|cbn in Hlen; lia].
  - intros ->. cbn in H. now injection H as <-.
  - intros H50 E. apply (f_equal (@List.length _)) in E.
    rewrite create_chunks_from_text_eq, length_map, length_seq in E.
    unfold kept_count in E.
    destruct (Nat.ltb_spec (String.length txt) 100); cbn in E; lia.
Qed.

Lemma extracted_text_length_witness :
  2 * List.length [Some "a"; Some "b"] <= String.length "a

b

".
Proof.
  apply (extracted_text_length [Some "a"; Some "b"] _ sample_info).
  reflexivity.
Defined.

End ExtractorFacts.

(** ** Per-company driving loop: shape of the requests, bounds, edge cases *)

Section DriverMore.

Import Synth Driver.

Variable extract : string -> option string.
Variable service : nat -> Client.

Lemma chunk_loop_shape code chunks : forall st,
  let st' := chunk_loop service code chunks st in
  exists lg m,
    log st' = (log st ++ lg)%list
    /\ map fst lg = map OfChunk (firstn m chunks)
    /\ m <= List.length chunks
    /\ Forall (fun p => (1 <= snd p <= 5)%Z) lg
    /\ (m < List.length chunks -> (questions_needed st' <= 0)%Z).
Proof.
  induction chunks as [|c rest IH]; intros st; cbv zeta.
  - exists [], 0. cbn. unfold log. rewrite app_nil_r.
    repeat split; auto. lia.
  - cbn [chunk_loop]. cbv zeta.
    destruct (Z.leb_spec (Z.min 5 (questions_needed st)) 0) as [Hle|Hgt].
    + exists [], 0. unfold log. rewrite app_nil_r. cbn.
      repeat split; auto; lia.
    + unfold call. destruct (generate_questions _ _ _ _ _) as [qs counter].
      match goal with
      | |- context [chunk_loop service code rest ?s] =>
          destruct (IH s) as (lg & m & Hlog & Hfst & Hm & Hsz & Hstop);
          set (st1 := s) in *
      end.
      cbv zeta in Hlog, Hstop.
      exists ((OfChunk c, Z.min 5 (questions_needed st)) :: lg), (S m).
      split; [|split; [|split; [|split]]].
      * rewrite Hlog. unfold log at 1. unfold st1. cbn [world trace].
        rewrite request_log_app. cbn [request_log flat_map app].
        now rewrite <- app_assoc.
      * cbn [map fst firstn]. now rewrite Hfst.
      * cbn [List.length]. lia.
      * constructor; [cbn; lia|exact Hsz].
      * cbn [List.length]. intros H. apply Hstop. lia.
Qed.

Lemma pdf_loop_stopped name code quota pdf_infos : forall st,
  (quota - count st <= 0)%Z ->
  let st' := pdf_loop extract service name code quota pdf_infos st in
  log st' = log st /\ all_questions st' = all_questions st.
Proof.
  induction pdf_infos as [|r rest IH]; intros st Hq; [now cbn|].
  cbn [pdf_loop]. cbv zeta.
  set (st1 := mkLocals (all_questions st) (id_counter st)
                       (questions_needed st)
                       (emit (Extract (ref_path r)) (world st))).
  assert (Hlog1 : log st1 = log st).
  { unfold log, st1. cbn [world emit trace].
    rewrite request_log_app. cbn. now rewrite app_nil_r. }
  assert (Hq1 : (quota - count st1 <= 0)%Z) by exact Hq.
  destruct (extract (ref_path r)) as [[|ch t]|].
  - destruct (IH st1 Hq1) as [-> ->]. now rewrite Hlog1.
  - fold (count st1).
    destruct (Z.leb_spec (quota - count st1) 0); [|lia].
    split; [exact Hlog1|reflexivity].
  - destruct (IH st1 Hq1) as [-> ->]. now rewrite Hlog1.
Qed.

Lemma firstn_app_exact {A} (l1 l2 : list A) (m : nat) :
  firstn (List.length l1 + m) (l1 ++ l2) = (l1 ++ firstn m l2)%list.
Proof. induction l1 as [|x l1 IH]; cbn; [reflexivity|now rewrite IH]. Qed.

Lemma firstn_app_short {A} (l1 l2 : list A) (m : nat) :
  m <= List.length l1 -> firstn m (l1 ++ l2) = firstn m l1.
Proof.
  revert m. induction l1 as [|x l1 IH]; intros [|m] H; cbn in *;
    try reflexivity; try lia.
  f_equal. apply IH. lia.
Qed.

Lemma pdf_loop_shape name code quota pdf_infos : forall st,
  let st' := pdf_loop extract service name code quota pdf_infos st in
  let cs := chunks_within_cap extract name pdf_infos in
  exists lg m,
    log st' = (log st ++ lg)%list
    /\ map fst lg = map OfChunk (firstn m cs)
    /\ m <= List.length cs
    /\ Forall (fun p => (1 <= snd p <= 5)%Z) lg.
Proof.
  induction pdf_infos as [|r rest IH]; intros st; cbv zeta.
  - exists [], 0. cbn. unfold log. rewrite app_nil_r. repeat split; auto.
  - cbn [pdf_loop chunks_within_cap flat_map]. cbv zeta.
    fold (chunks_within_cap extract name rest). unfold usable_chunks.
    set (st1 := mkLocals (all_questions st) (id_counter st)
                         (questions_needed st)
                         (emit (Extract (ref_path r)) (world st))).
    assert (Hlog1 : log st1 = log st).
    { unfold log, st1. cbn [world emit trace].
      rewrite request_log_app. cbn. now rewrite app_nil_r. }
    destruct (extract (ref_path r)) as [[|ch t]|].
    + cbn [app]. rewrite <- Hlog1. apply IH.
    + set (txt := String ch t).
      set (chunks := Chunker.create_chunks_from_text txt _).
      set (use := firstn (Nat.min 5 (List.length chunks)) chunks).
      fold (count st1).
      destruct (Z.leb_spec (quota - count st1) 0) as [Hle|Hgt].
      * exists [], 0. unfold log. cbn [world]. fold (log st1).
        rewrite Hlog1, app_nil_r. cbn. repeat split; auto. lia.
      * set (st2 := mkLocals (all_questions st1) (id_counter st1)
                             (quota - count st1) (world st1)).
        destruct (chunk_loop_shape code use st2)
          as (lg1 & m1 & Hlog2 & Hfst1 & Hm1 & Hsz1 & Hstop).
        pose proof (chunk_loop_needed service code use st2) as Hinv.
        cbv zeta in Hlog2, Hstop, Hinv.
        set (st3 := chunk_loop service code use st2) in *.
        change (log st2) with (log st1) in Hlog2.
        assert (Hq : (quota - count st3)%Z = questions_needed st3).
        { change (questions_needed st2) with (quota - count st1)%Z in Hinv.
          change (count st2) with (count st1) in Hinv. lia. }
        destruct (Nat.eq_dec m1 (List.length use)) as [Hfull|Hpart].
        -- destruct (IH st3) as (lg2 & m2 & Hlog3 & Hfst2 & Hm2 & Hsz2).
           cbv zeta in Hlog3.
           exists (lg1 ++ lg2)%list, (List.length use + m2).
           split; [|split; [|split]].
           ++ now rewrite Hlog3, Hlog2, Hlog1, app_assoc.
           ++ rewrite map_app, Hfst1, Hfst2, firstn_app_exact, map_app.
              f_equal. f_equal. rewrite Hfull. apply firstn_all.
           ++ rewrite length_app. lia.
           ++ apply Forall_app. now split.
        -- assert (Hstopped : (quota - count st3 <= 0)%Z)
             by (rewrite Hq; apply Hstop; lia).
           destruct (pdf_loop_stopped name code quota rest st3 Hstopped)
             as [Hlog3 _].
           cbv zeta in Hlog3.
           exists lg1, m1. split; [|split; [|split]].
           ++ now rewrite Hlog3, Hlog2, Hlog1.
           ++ rewrite Hfst1. f_equal. symmetry. now apply firstn_app_short.
           ++ rewrite length_app. lia.
           ++ exact Hsz1.
    + cbn [app]. rewrite <- Hlog1. apply IH.
Qed.

(** The requests of one company, whatever the service answers. *)
Lemma generation_shape name pdf_infos quota w :
  let st := generation extract service name pdf_infos quota w in
  let cs := chunks_within_cap extract name pdf_infos in
  exists new m,
    log st = (request_log (trace w) ++ new)%list
    /\ Forall (request_size_ok name) new
    /\ m <= List.length cs
    /\ (map fst new = map OfChunk (firstn m cs)
        \/ map fst new = (map OfChunk (firstn m cs) ++ [OfCompany name])%list).
Proof.
  cbv zeta. unfold generation, personnel_fallback.
  set (code := Code.generate_company_code name).
  set (st0 := mkLocals [] 1000 0 w).
  destruct (pdf_loop_shape name code quota pdf_infos st0)
    as (lg & m & Hlog & Hfst & Hm & Hsz).
  cbv zeta in Hlog.
  set (st1 := pdf_loop extract service name code quota pdf_infos st0) in *.
  change (log st0) with (request_log (trace w)) in Hlog.
  assert (Hsz' : Forall (request_size_ok name) lg).
  { rewrite Forall_forall in *. intros p Hp. specialize (Hsz p Hp).
    apply (in_map fst) in Hp. rewrite Hfst in Hp.
    apply in_map_iff in Hp. destruct Hp as (c & Hc & _).
    unfold request_size_ok. now rewrite <- Hc. }
  fold (count st1).
  destruct (Z.ltb_spec (count st1) quota) as [Hlt|Hge].
  - unfold call. destruct (generate_questions _ _ _ _ _) as [qs counter].
    exists (lg ++ [(OfCompany name, (quota - count st1)%Z)])%list, m.
    split; [|split; [|split]].
    + unfold log. cbn [world trace]. rewrite request_log_app.
      fold (log st1). rewrite Hlog, <- app_assoc. reflexivity.
    + apply Forall_app. split; [exact Hsz'|].
      constructor; [|constructor]. unfold request_size_ok. cbn. split; [auto|lia].
    + exact Hm.
    + right. rewrite map_app, Hfst. reflexivity.
  - exists lg, m. split; [exact Hlog|]. split; [exact Hsz'|].
    split; [exact Hm|]. now left.
Qed.

End DriverMore.

Section DriverTheorems.

Import Synth Driver.

Variable extract : string -> option string.
Variable service : nat -> Client.

Lemma request_log_makedirs out country w :
  request_log (trace (emit (Makedirs (Py.path_join out country))
                           (emit (Makedirs out) w)))
  = request_log (trace w).
Proof.
  cbn [emit trace]. rewrite !request_log_app. cbn. now rewrite !app_nil_r.
Qed.

(** X19.  Whatever the service answers, the requests of one company's run
    visit the chunks within the cap in document order without skipping
    one, each asking for 1 to 5 questions; a personnel-mode request, about
    this company and for at least one question, comes at most once and
    last. *)
Theorem requests_follow_the_chunks
        (name : string) (first : PdfRef) (rest : list PdfRef)
        (out : string) (quota : Z) (w : World) :
  exists qs w' new m,
    process_company_documents extract service name (first :: rest) out quota w
    = Some (qs, w')
    /\ request_log (trace w') = (request_log (trace w) ++ new)%list
    /\ Forall (request_size_ok name) new
    /\ (map fst new
        = map OfChunk
              (firstn m (chunks_within_cap extract name (first :: rest)))
        \/ map fst new
           = (map OfChunk
                  (firstn m (chunks_within_cap extract name (first :: rest)))
              ++ [OfCompany name])%list).
Proof.
  destruct (process_company_documents_log extract service name first rest
                                          out quota w)
    as (qs & w' & Hrun & _ & Hlog).
  match type of Hlog with
  | _ = log (generation _ _ _ ?l ?q ?w0) =>
      destruct (generation_shape extract service name l q w0)
        as (new & m & Hshape & Hsz & _ & Hfst)
  end.
  cbv zeta in Hshape. rewrite request_log_makedirs in Hshape.
  exists qs, w', new, m. rewrite Hlog. auto.
Qed.

Lemma usable_chunks_length name r :
  List.length (usable_chunks extract name r) <= 5.
Proof.
  unfold usable_chunks. destruct (extract (ref_path r)) as [[|ch t]|];
    cbn [List.length]; try lia.
  cbv zeta. rewrite length_firstn. lia.
Qed.

Lemma chunks_within_cap_length name pdf_infos :
  List.length (chunks_within_cap extract name pdf_infos)
  <= 5 * List.length pdf_infos.
Proof.
  induction pdf_infos as [|r rest IH]; [cbn; lia|].
  cbn [chunks_within_cap flat_map]. fold (chunks_within_cap extract name rest).
  rewrite length_app. pose proof (usable_chunks_length name r).
  cbn [List.length]. lia.
Qed.

(** X20.  One company's run issues at most five requests per document and
    one more. *)
Theorem at_most_five_requests_per_document
        (name : string) (first : PdfRef) (rest : list PdfRef)
        (out : string) (quota : Z) (w : World) :
  exists qs w',
    process_company_documents extract service name (first :: rest) out quota w
    = Some (qs, w')
    /\ List.length (request_log (trace w'))
       <= List.length (request_log (trace w))
          + 5 * List.length (first :: rest) + 1.
Proof.
  destruct (process_company_documents_log extract service name first rest
                                          out quota w)
    as (qs & w' & Hrun & _ & Hlog).
  match type of Hlog with
  | _ = log (generation _ _ _ ?l ?q ?w0) =>
      destruct (generation_shape extract service name l q w0)
        as (new & m & Hshape & _ & Hm & Hfst)
  end.
  cbv zeta in Hshape. rewrite request_log_makedirs in Hshape.
  exists qs, w'. split; [exact Hrun|]. rewrite Hlog, Hshape, length_app.
  pose proof (chunks_within_cap_length name (first :: rest)) as Hcap.
  assert (Hnew : List.length new <= m + 1).
  { rewrite <- (length_map fst new).
    destruct Hfst as [->| ->];
      rewrite ?length_app, !length_map, length_firstn; cbn [List.length]; lia. }
  lia.
Qed.


End DriverTheorems.

Section DriverTheoremWitnesses.

Import Synth Driver.


End DriverTheoremWitnesses.

(** ** Questions of one company: owner and identifiers *)

Section CompanyOutput.

Import Synth Driver.

Variable extract : string -> option string.
Variable service : nat -> Client.

Lemma generate_questions_company data client code c n :
  Forall (fun q => md_company (metadata q) = company_name (context_of data))
         (fst (generate_questions data client code c n)).
Proof.
  apply generate_questions_Forall. intros c0 q fq H.
  apply format_question_fields in H. now destruct H as (_ & -> & _).
Qed.

Lemma chunk_loop_company name code chunks : forall st,
  Forall (fun c => chunk_company c = name) chunks ->
  Forall (fun q => md_company (metadata q) = name) (all_questions st) ->
  Forall (fun q => md_company (metadata q) = name)
         (all_questions (chunk_loop service code chunks st)).
Proof.
  induction chunks as [|c rest IH]; intros st Hc Hst; [exact Hst|].
  cbn [chunk_loop]. cbv zeta. destruct (_ <=? 0)%Z; [exact Hst|].
  unfold call.
  pose proof (generate_questions_company
                (OfChunk c) (service (requests (world st))) code
                (id_counter st) (Z.min 5 (questions_needed st))) as Hq.
  destruct (generate_questions _ _ _ _ _) as [qs counter]. cbn [fst] in Hq.
  inversion Hc as [|? ? Hc0 Hrest]; subst.
  apply IH; [exact Hrest|]. cbn [all_questions].
  apply Forall_app. split; [exact Hst|]. exact Hq.
Qed.

Lemma created_chunks_company txt info :
  Forall (fun c => chunk_company c = company info)
         (Chunker.create_chunks_from_text txt info).
Proof.
  rewrite create_chunks_from_text_eq. apply Forall_forall.
  intros c Hc. apply in_map_iff in Hc. now destruct Hc as (k & <- & _).
Qed.

Lemma Forall_firstn {A} (P : A -> Prop) (n : nat) (l : list A) :
  Forall P l -> Forall P (firstn n l).
Proof.
  intros H. revert n. induction H as [|x l Hx Hl IH]; intros [|n]; cbn;
    constructor; auto.
Qed.

Lemma pdf_loop_company name code quota pdf_infos : forall st,
  Forall (fun q => md_company (metadata q) = name) (all_questions st) ->
  Forall (fun q => md_company (metadata q) = name)
         (all_questions (pdf_loop extract service name code quota pdf_infos st)).
Proof.
  induction pdf_infos as [|r rest IH]; intros st Hst; [exact Hst|].
  cbn [pdf_loop]. cbv zeta.
  destruct (extract (ref_path r)) as [[|ch t]|].
  - apply IH. exact Hst.
  - destruct (_ <=? 0)%Z; [exact Hst|].
    apply IH. apply chunk_loop_company; [|exact Hst].
    apply Forall_firstn.
    apply (created_chunks_company
             _ (mkPdfInfo (ref_path r) (ref_country r) (ref_filename r) name)).
  - apply IH. exact Hst.
Qed.

Lemma generation_company name pdf_infos quota w :
  Forall (fun q => md_company (metadata q) = name)
         (all_questions (generation extract service name pdf_infos quota w)).
Proof.
  unfold generation, personnel_fallback.
  match goal with
  | |- context [pdf_loop _ _ ?n ?c ?q ?l ?s] =>
      pose proof (pdf_loop_company n c q l s (Forall_nil _)) as H;
      set (st1 := pdf_loop extract service n c q l s) in *
  end.
  destruct (_ <? quota)%Z; [|exact H]. unfold call.
  pose proof (generate_questions_company
                (OfCompany name) (service (requests (world st1)))
                (Code.generate_company_code name) (id_counter st1)
                (quota - Z.of_nat (List.length (all_questions st1)))%Z) as Hq.
  destruct (generate_questions _ _ _ _ _) as [qs counter]. cbn [fst] in Hq.
  cbn [all_questions]. apply Forall_app. split; [exact H|exact Hq].
Qed.

(** X22.  Every question a company's run returns names that company in its
    metadata, in chunk mode and in personnel mode alike. *)
Theorem questions_name_their_company
        (name : string) (first : PdfRef) (rest : list PdfRef)
        (out : string) (quota : Z) (w : World) :
  exists qs w',
    process_company_documents extract service name (first :: rest) out quota w
    = Some (qs, w')
    /\ Forall (fun q => md_company (metadata q) = name) qs.
Proof.
  destruct (process_company_documents_log extract service name first rest
                                          out quota w)
    as (qs & w' & Hrun & -> & _).
  eexists. exists w'. split; [exact Hrun|]. apply generation_company.
Qed.

(** X23.  Whatever the service answers, the identifiers of the questions a
    company's run returns are pairwise distinct: each is the company code
    followed by a number above 1000, and the numbers grow strictly in the
    order of the questions. *)
Theorem company_ids_are_distinct
        (name : string) (first : PdfRef) (rest : list PdfRef)
        (out : string) (quota : Z) (w : World) :
  exists qs w' ks,
    process_company_documents extract service name (first :: rest) out quota w
    = Some (qs, w')
    /\ NoDup (map id qs)
    /\ map id qs = map (fun k => Code.generate_company_code name ++ Py.str k) ks
    /\ StronglySorted lt ks
    /\ Forall (fun k => 1000 < k) ks.
Proof.
  destruct (process_company_documents_log extract service name first rest
                                          out quota w)
    as (qs & w' & Hrun & -> & _).
  match goal with
  | Hrun : _ = Some (all_questions (generation _ _ _ ?l ?q ?w0), _) |- _ =>
      pose proof (ids_strictly_increasing extract service name l q w0) as Hnum
  end.
  cbv zeta in Hnum. pose proof (numbered_NoDup _ _ _ _ Hnum) as Hnd.
  destruct Hnum as (ks & Hids & Hs & Hb).
  eexists. exists w', ks. split; [exact Hrun|].
  split; [exact Hnd|]. split; [exact Hids|]. split; [exact Hs|].
  eapply Forall_impl; [|exact Hb]. cbn. intros k Hk. lia.
Qed.

(** X24.  When no call of the service drops a batch (each returns its
    counter advanced by exactly the number of questions it returns), the M
    questions of a company's run carry the identifiers code+1001 ...
    code+(1000+M), in order. *)
Theorem company_ids_are_consecutive
        (name : string) (first : PdfRef) (rest : list PdfRef)
        (out : string) (quota : Z) (w : World) :
  no_dropped_batch service ->
  exists qs w',
    process_company_documents extract service name (first :: rest) out quota w
    = Some (qs, w')
    /\ map id qs
       = map (fun k => Code.generate_company_code name ++ Py.str (1000 + k))
             (seq 1 (List.length qs)).
Proof.
  intros Hclean.
  destruct (process_company_documents_log extract service name first rest
                                          out quota w)
    as (qs & w' & Hrun & -> & _).
  eexists. exists w'. split; [exact Hrun|].
  now apply ids_consecutive.
Qed.

End CompanyOutput.

Section CompanyOutputWitnesses.

Import Synth Driver.

Lemma obliging_service_drops_nothing : no_dropped_batch obliging_service.
Proof.
  intros k data code counter n. cbv zeta.
  unfold generate_questions, obliging_service. cbn [num_questions iterate].
  destruct (format_loop_sample_items (context_of data) code
                                     (Z.to_nat n) counter [])
    as (out & -> & Hlen).
  cbn [fst snd List.length] in *. lia.
Qed.

Lemma company_ids_are_consecutive_witness :
  exists qs w',
    process_company_documents long_report obliging_service "Tabreed"
                              [sample_ref] "output" 7 initial_world
    = Some (qs, w')
    /\ map id qs
       = map (fun k => Code.generate_company_code "Tabreed" ++ Py.str (1000 + k))
             (seq 1 (List.length qs)).
Proof.
  apply (company_ids_are_consecutive
           long_report obliging_service "Tabreed" sample_ref [] "output" 7
           initial_world).
  exact obliging_service_drops_nothing.
Defined.

End CompanyOutputWitnesses.

(** ** The quota under a service that returns what it is asked for *)

Section ExactPlan.

Import Synth Driver.

Variable extract : string -> option string.
Variable service : nat -> Client.

Lemma remaining_closed chunks : forall quota,
  (0 < remaining quota chunks)%Z
  <-> (5 * Z.of_nat (List.length chunks) < quota)%Z.
Proof.
  induction chunks as [|c rest IH]; intros quota.
  - cbn. lia.
  - cbn [remaining List.length]. cbv zeta.
    destruct (Z.leb_spec (Z.min 5 quota) 0) as [Hle|Hgt]; [lia|].
    rewrite IH. lia.
Qed.

Lemma remaining_value chunks : forall quota,
  (5 * Z.of_nat (List.length chunks) < quota)%Z ->
  remaining quota chunks = (quota - 5 * Z.of_nat (List.length chunks))%Z.
Proof.
  induction chunks as [|c rest IH]; intros quota H.
  - cbn. lia.
  - cbn [remaining List.length] in *. cbv zeta.
    destruct (Z.leb_spec (Z.min 5 quota) 0) as [Hle|Hgt]; [lia|].
    rewrite IH by lia. lia.
Qed.

Lemma plan_sizes chunks : forall quota,
  (Z.of_nat (List.length (plan quota chunks))
   = Z.max 0 (Z.min (Z.of_nat (List.length chunks)) ((quota + 4) / 5)))%Z
  /\ fold_right Z.add 0%Z (map snd (plan quota chunks))
     = Z.max 0 (Z.min quota (5 * Z.of_nat (List.length chunks)))%Z.
Proof.
  induction chunks as [|c rest IH]; intros quota.
  - cbn. split; [|lia].
    pose proof (Z.div_mod (quota + 4) 5 ltac:(lia)).
    pose proof (Z.mod_pos_bound (quota + 4) 5 ltac:(lia)). lia.
  - cbn [plan List.length]. cbv zeta.
    pose proof (Z.div_mod (quota + 4) 5 ltac:(lia)) as Hd.
    pose proof (Z.mod_pos_bound (quota + 4) 5 ltac:(lia)) as Hm.
    destruct (Z.leb_spec (Z.min 5 quota) 0) as [Hle|Hgt].
    + cbn. split; lia.
    + destruct (IH (quota - Z.min 5 quota)%Z) as [Hlen Hsum].
      cbn [List.length map snd fold_right]. rewrite Hsum.
      pose proof (Z.div_mod (quota - Z.min 5 quota + 4) 5 ltac:(lia)) as Hd'.
      pose proof (Z.mod_pos_bound (quota - Z.min 5 quota + 4) 5 ltac:(lia))
        as Hm'.
      split; lia.
Qed.

(** X10.  Under a service that returns exactly what each chunk-mode call
    asks for, a company's run with N chunks within the cap and quota Q
    issues min(N, ceil(Q/5)) chunk-mode requests (none for Q <= 0) that ask
    for min(Q, 5N) questions in all, and then a personnel-mode request
    exactly when 5N < Q, for the Q - 5N questions still missing. *)
Theorem exact_service_fills_the_quota
        (name : string) (first : PdfRef) (rest : list PdfRef)
        (out : string) (quota : Z) (w : World) :
  exact_service service ->
  let N := Z.of_nat (List.length
                       (chunks_within_cap extract name (first :: rest))) in
  exists qs w' chunk_requests,
    process_company_documents extract service name (first :: rest) out quota w
    = Some (qs, w')
    /\ request_log (trace w')
       = (request_log (trace w) ++ chunk_requests
          ++ (if (5 * N <? quota)%Z
              then [(OfCompany name, (quota - 5 * N)%Z)] else []))%list
    /\ (exists m, map fst chunk_requests
                  = map OfChunk
                        (firstn m (chunks_within_cap extract name
                                                     (first :: rest))))
    /\ Z.of_nat (List.length chunk_requests)
       = Z.max 0 (Z.min N ((quota + 4) / 5))
    /\ fold_right Z.add 0%Z (map snd chunk_requests)
       = Z.max 0 (Z.min quota (5 * N)).
Proof.
  intros Hexact N.
  destruct (process_company_documents_log extract service name first rest
                                          out quota w)
    as (qs & w' & Hrun & _ & Hlog).
  set (cs := chunks_within_cap extract name (first :: rest)) in *.
  exists qs, w', (plan quota cs). split; [exact Hrun|].
  destruct (plan_sizes cs quota) as [Hlen Hsum].
  split; [|split; [|split; [exact Hlen|exact Hsum]]].
  - rewrite Hlog, generation_plan by exact Hexact. cbv zeta. fold cs.
    rewrite request_log_makedirs. do 2 f_equal.
    destruct (Z.ltb_spec (5 * N) quota) as [Hlt|Hge].
    + pose proof (proj2 (remaining_closed cs quota) Hlt) as Hpos.
      apply Z.ltb_lt in Hpos. rewrite Hpos.
      now rewrite remaining_value by exact Hlt.
    + destruct (Z.ltb_spec 0 (remaining quota cs)) as [Hpos|_]; [|reflexivity].
      apply remaining_closed in Hpos. unfold N in Hge. lia.
  - clear. revert quota. induction cs as [|c cs IH]; intros quota.
    + exists 0. reflexivity.
    + cbn [plan]. cbv zeta. destruct (_ <=? 0)%Z; [now exists 0|].
      destruct (IH (quota - Z.min 5 quota)%Z) as [m Hm].
      exists (S m). cbn [map fst firstn]. now rewrite Hm.
Qed.

End ExactPlan.

Section ExactPlanWitness.

Import Synth Driver.

Lemma exact_service_fills_the_quota_witness :
  exists qs w' (chunk_requests : list (Data * Z)),
    process_company_documents long_report obliging_service "Tabreed"
                              [sample_ref] "output" 20 initial_world
    = Some (qs, w')
    /\ Z.of_nat (List.length chunk_requests) = 3%Z
    /\ fold_right Z.add 0%Z (map snd chunk_requests) = 15%Z.
Proof.
  destruct (exact_service_fills_the_quota
              long_report obliging_service "Tabreed" sample_ref [] "output" 20
              initial_world obliging_service_exact)
    as (qs & w' & reqs & Hrun & _ & _ & Hlen & Hsum).
  exists qs, w', reqs. split; [exact Hrun|]. split.
  - rewrite Hlen. vm_compute. reflexivity.
  - rewrite Hsum. vm_compute. reflexivity.
Defined.

End ExactPlanWitness.

(** ** The whole run: files and summary *)

Section MainMore.

Import Synth Driver.

Variable extract : string -> option string.
Variable service : nat -> Client.

Lemma files_written_app t1 t2 :
  files_written (t1 ++ t2) = (files_written t1 ++ files_written t2)%list.
Proof. apply flat_map_app. Qed.

Lemma same_files_trans w1 w2 w3 :
  same_files w1 w2 -> same_files w2 w3 -> same_files w1 w3.
Proof. unfold same_files. congruence. Qed.

Lemma same_files_extract p w : same_files w (emit (Extract p) w).
Proof.
  unfold same_files. cbn [emit trace]. rewrite files_written_app. cbn.
  now rewrite app_nil_r.
Qed.

Lemma same_files_makedirs d w : same_files w (emit (Makedirs d) w).
Proof.
  unfold same_files. cbn [emit trace]. rewrite files_written_app. cbn.
  now rewrite app_nil_r.
Qed.

Lemma same_files_call data code c n w :
  same_files w (snd (call service data code c n w)).
Proof.
  unfold same_files, call. cbn [snd trace]. rewrite files_written_app. cbn.
  now rewrite app_nil_r.
Qed.

Lemma chunk_loop_same_files code chunks : forall st,
  same_files (world st) (world (chunk_loop service code chunks st)).
Proof.
  induction chunks as [|c rest IH]; intros st; [reflexivity|].
  cbn [chunk_loop]. cbv zeta. destruct (_ <=? 0)%Z; [reflexivity|].
  pose proof (same_files_call (OfChunk c) code (id_counter st)
                              (Z.min 5 (questions_needed st)) (world st)) as Hc.
  destruct (call service _ _ _ _ _) as [[qs counter] w1]. cbn [snd] in Hc.
  eapply same_files_trans; [exact Hc|]. apply (IH (mkLocals _ _ _ w1)).
Qed.

Lemma pdf_loop_same_files name code quota pdf_infos : forall st,
  same_files (world st)
             (world (pdf_loop extract service name code quota pdf_infos st)).
Proof.
  induction pdf_infos as [|r rest IH]; intros st; [reflexivity|].
  cbn [pdf_loop]. cbv zeta.
  destruct (extract (ref_path r)) as [[|ch t]|].
  - eapply same_files_trans; [apply same_files_extract|].
    apply (IH (mkLocals _ _ _ _)).
  - destruct (_ <=? 0)%Z; [apply same_files_extract|].
    eapply same_files_trans; [apply same_files_extract|].
    eapply same_files_trans; [|apply IH].
    apply (chunk_loop_same_files code _ (mkLocals _ _ _ _)).
  - eapply same_files_trans; [apply same_files_extract|].
    apply (IH (mkLocals _ _ _ _)).
Qed.

Lemma generation_same_files name pdf_infos quota w :
  same_files w (world (generation extract service name pdf_infos quota w)).
Proof.
  unfold generation, personnel_fallback.
  match goal with
  | |- context [pdf_loop _ _ ?n ?c ?q ?l ?s] =>
      pose proof (pdf_loop_same_files n c q l s) as H;
      set (st1 := pdf_loop extract service n c q l s) in *
  end.
  cbn [world] in H. destruct (_ <? quota)%Z; [|exact H].
  pose proof (same_files_call
                (OfCompany name) (Code.generate_company_code name)
                (id_counter st1)
                (quota - Z.of_nat (List.length (all_questions st1)))%Z
                (world st1)) as Hc.
  destruct (call service _ _ _ _ _) as [[qs counter] w1]. cbn [snd] in Hc.
  cbn [world]. eapply same_files_trans; eauto.
Qed.

(** One company: its questions name it, and its run writes one file. *)
Lemma process_company_documents_file name first rest out quota w :
  exists qs w',
    process_company_documents extract service name (first :: rest) out quota w
    = Some (qs, w')
    /\ owned (name, first :: rest) qs
    /\ written_for out (trace w') (name, first :: rest) qs
    /\ extends w w'
    /\ files_written (trace w')
       = (files_written (trace w)
          ++ [company_file out (name, first :: rest)])%list.
Proof.
  destruct (process_company_documents_writes extract service name first rest
                                             out quota w)
    as (qs & w' & Hrun & Hext & Hin).
  exists qs, w'. split; [exact Hrun|]. split; [|split; [|split]].
  - destruct (process_company_documents_log extract service name first rest
                                            out quota w)
      as (qs2 & w2 & Hrun2 & Hqs & _).
    rewrite Hrun in Hrun2. injection Hrun2 as <- <-. rewrite Hqs.
    apply generation_company.
  - exists first, rest. split; [reflexivity|exact Hin].
  - exact Hext.
  - cbn [process_company_documents] in Hrun. injection Hrun as _ <-.
    cbn [emit trace]. rewrite files_written_app. cbn [files_written flat_map app].
    f_equal.
    match goal with
    | |- context [generation _ _ ?n ?l ?q ?w0] =>
        pose proof (generation_same_files n l q w0) as Hg
    end.
    unfold same_files in Hg. rewrite Hg.
    cbn [emit trace]. rewrite !files_written_app. cbn. now rewrite !app_nil_r.
Qed.

Lemma companies_loop_files out quota company_pdfs :
  Forall (fun kv => snd kv <> []) company_pdfs ->
  forall all w,
  exists per_company w',
    companies_loop extract service company_pdfs out quota all w
    = Some ((all ++ concat per_company)%list, w')
    /\ extends w w'
    /\ Forall2 owned company_pdfs per_company
    /\ Forall2 (written_for out (trace w')) company_pdfs per_company
    /\ files_written (trace w')
       = (files_written (trace w) ++ map (company_file out) company_pdfs)%list.
Proof.
  induction 1 as [|[name pdf_infos] others Hne Hothers IH]; intros all w.
  - exists [], w. cbn. rewrite !app_nil_r.
    split; [reflexivity|]. split; [exists []; now rewrite app_nil_r|].
    repeat split; constructor.
  - cbn [companies_loop]. cbn [snd] in Hne.
    destruct pdf_infos as [|first rest]; [contradiction|].
    destruct (process_company_documents_file name first rest out quota w)
      as (qs & w1 & -> & Hown & Hwr & Hext1 & Hfiles1).
    destruct (IH (all ++ qs)%list w1)
      as (per & w2 & -> & Hext2 & Howned & Hall & Hfiles2).
    exists (qs :: per), w2. cbn [concat map]. rewrite app_assoc.
    split; [reflexivity|]. split; [|split; [|split]].
    + destruct Hext1 as [t1 E1], Hext2 as [t2 E2].
      exists (t1 ++ t2)%list. now rewrite E2, E1, app_assoc.
    + constructor; assumption.
    + constructor; [|exact Hall].
      destruct Hwr as (f & r & Hkv & Hin). exists f, r. split; [exact Hkv|].
      destruct Hext2 as [t2 E2]. rewrite E2. apply in_or_app. now left.
    + rewrite Hfiles2, Hfiles1, <- app_assoc. reflexivity.
Qed.


End MainMore.

Section MainMoreWitnesses.

Import Synth Driver.


End MainMoreWitnesses.

Section SummaryFacts.

Import Synth Driver.

Variable extract : string -> option string.
Variable service : nat -> Client.

Lemma filter_others (name : string) cps per :
  Forall2 owned cps per ->
  ~ In name (map fst cps) ->
  filter (fun q => String.eqb (md_company (metadata q)) name) (concat per) = [].
Proof.
  induction 1 as [|kv qs cps per Hown Hrest IH]; intros Hnot; [reflexivity|].
  cbn [concat]. rewrite filter_app.
  cbn [map In] in Hnot.
  rewrite IH by (intros Hin; apply Hnot; now right). rewrite app_nil_r.
  apply filter_keep_none. intros q Hq. unfold owned in Hown.
  rewrite Forall_forall in Hown. rewrite (Hown q Hq).
  apply String.eqb_neq. intros E. apply Hnot. now left.
Qed.

Lemma filter_own kv qs :
  owned kv qs ->
  filter (fun q => String.eqb (md_company (metadata q)) (fst kv)) qs = qs.
Proof.
  intros Hown. apply filter_keep_all. intros q Hq. unfold owned in Hown.
  rewrite Forall_forall in Hown. rewrite (Hown q Hq). apply String.eqb_refl.
Qed.

Lemma summary_loop_rows todo per_todo :
  Forall2 owned todo per_todo ->
  forall done per_done rows,
    Forall2 owned done per_done ->
    NoDup (map fst (done ++ todo)) ->
    summary_loop todo (concat (per_done ++ per_todo)) = Some rows ->
    Forall2 (fun kvqs row => row_of (fst kvqs) (snd kvqs) row)
            (combine todo per_todo) rows.
Proof.
  induction 1 as [|[name pdf_infos] qs todo per_todo Hown Hrest IH];
    intros done per_done rows Hdone Hnd.
  - cbn. intros [= <-]. constructor.
  - cbn [summary_loop]. destruct pdf_infos as [|first others]; [discriminate|].
    assert (Hfilter :
              filter (fun q => String.eqb (md_company (metadata q)) name)
                     (concat (per_done ++ qs :: per_todo)) = qs).
    { rewrite map_app in Hnd. cbn [map fst] in Hnd.
      apply NoDup_remove_2 in Hnd.
      rewrite concat_app. cbn [concat]. rewrite !filter_app.
      rewrite (filter_others name done per_done Hdone)
        by (intros Hin; apply Hnd, in_or_app; now left).
      rewrite (filter_others name todo per_todo Hrest)
        by (intros Hin; apply Hnd, in_or_app; now right).
      rewrite app_nil_r. cbn [app]. apply (filter_own (name, _) qs Hown). }
    rewrite Hfilter.
    destruct (categories_cell qs) as [cell|] eqn:Ecell; [|discriminate].
    destruct (summary_loop todo (concat (per_done ++ qs :: per_todo)))
      as [rows'|] eqn:Erows; [|discriminate].
    intros [= <-]. cbn [combine]. constructor.
    + unfold row_of. cbn. repeat split. exact Ecell.
    + apply (IH (done ++ [(name, first :: others)])%list
                (per_done ++ [qs])%list).
      * apply Forall2_app; [exact Hdone|]. constructor; [exact Hown|constructor].
      * now rewrite <- app_assoc.
      * now rewrite <- app_assoc.
Qed.

(** X26.  In a run that finishes, the summary table has one row per
    company, in collection order; the row gives the company's name, its
    code, the country of its first PDF, the number of its PDFs, the number
    of questions its own run returned (the ones written to its file), and
    the sorted distinct categories of those questions. *)
Theorem summary_has_one_row_per_company
        (args : Args) (env_api_key : option string) (l : Collector.Listing)
        (w : World) :
  main extract service args env_api_key l = (Finished, w) ->
  exists per_company rows,
    Forall2 (written_for (output_dir args) (trace w))
            (Collector.collect_gcc_company_pdfs (input_dir args) l) per_company
    /\ In (WriteCsv (Py.path_join (output_dir args) "processing_summary.csv")
                    rows)
          (trace w)
    /\ Forall2 (fun kvqs row => row_of (fst kvqs) (snd kvqs) row)
               (combine (Collector.collect_gcc_company_pdfs (input_dir args) l)
                        per_company)
               rows.
Proof.
  unfold main.
  destruct (negb (truthy _)); [discriminate|].
  pose proof (collected_groups_nonempty (input_dir args) l) as Hgroups.
  pose proof (collection_keys_nodup_aux (input_dir args) l) as Hnd.
  destruct (Collector.collect_gcc_company_pdfs (input_dir args) l)
    as [|kv others] eqn:Ecollect; [discriminate|].
  destruct (companies_loop_files extract service (output_dir args)
              (questions_per_company args) (kv :: others) Hgroups
              [] initial_world)
    as (per & w1 & -> & _ & Howned & Hall & _).
  cbn [app]. cbv zeta.
  destruct (summary_loop (kv :: others) (concat per)) as [rows|] eqn:Esum;
    [|discriminate].
  intros [= <-]. exists per, rows. split; [|split].
  - eapply Forall2_impl; [|exact Hall].
    intros kv' qs (first & rest & Hkv & Hin).
    exists first, rest. split; [exact Hkv|].
    cbn [emit trace]. apply in_or_app. left. apply in_or_app. now left.
  - cbn [emit trace]. apply in_or_app. right. now left.
  - apply (summary_loop_rows (kv :: others) per Howned [] [] rows);
      [constructor|exact Hnd|exact Esum].
Qed.

End SummaryFacts.

Section SummaryWitness.

Import Synth Driver.

Lemma summary_has_one_row_per_company_witness :
  exists per_company rows,
    Forall2 (written_for
               "output"
               (trace (snd (main unreadable obliging_service sample_args
                                 None sample_listing))))
            (Collector.collect_gcc_company_pdfs "files" sample_listing)
            per_company
    /\ In (WriteCsv "output/processing_summary.csv" rows)
          (trace (snd (main unreadable obliging_service sample_args None
                            sample_listing)))
    /\ Forall2 (fun kvqs row => row_of (fst kvqs) (snd kvqs) row)
               (combine (Collector.collect_gcc_company_pdfs
                           "files" sample_listing)
                        per_company)
               rows.
Proof.
  apply (summary_has_one_row_per_company
           unreadable obliging_service sample_args None sample_listing
           (snd (main unreadable obliging_service sample_args None
                      sample_listing))).
  vm_compute. reflexivity.
Defined.

End SummaryWitness.
